(** * heketi: request throttling middleware and retrying client

    A shallow embedding of

    - [middleware/http_throttling.go]: the [ReqLimiter] admission
      controller, its stale-entry sweeper [Cleanup] and [Stop];
    - [middleware/request_id.go]: [GetRequestID], [AddRequestID] and
      the [RequestID] middleware;
    - [client/api/go-client/client.go]: the constructors, [Hello], [do],
      [setToken], [checkRedirect], [waitForResponseWithTimer],
      [retryOperationDo] and [random];

    followed by the properties of the specification that concern them.

    Go values are modelled as the code has them: [uint32] counters as [Z]
    with the wrap-around written out, [time.Time] and [time.Duration] as
    integer nanoseconds, Go maps as [gmap], pointers as locations of a
    heap, channels by their identity together with the set of goroutines
    currently receiving on them.  Calls that may panic or block return a
    [Res]. *)

From Stdlib Require Import ZArith String Ascii List Lia Bool.
From stdpp Require Import gmap strings list fin_maps.

(** ** The parts of the Go runtime and standard library the code uses *)

Module Go.
Local Open Scope Z_scope.

(** [uint32] arithmetic wraps modulo 2^32. *)
Definition uint32 (z : Z) : Z := z mod 2 ^ 32.

Definition is_uint32 (z : Z) : Prop := 0 <= z < 2 ^ 32.

(** [time.Time] as nanoseconds since the epoch, [time.Duration] as a
    signed 64-bit count of nanoseconds. *)
Definition Time : Type := Z.
Definition Duration : Type := Z.

Definition minDuration : Duration := - 2 ^ 63.
Definition maxDuration : Duration := 2 ^ 63 - 1.
Definition Second : Duration := 1000000000.
Definition Minute : Duration := 60 * Second.

(** [t.Sub(u)]: the difference, saturated to the range of a Duration. *)
Definition Time_Sub (t u : Time) : Duration :=
  let d := t - u in
  if d <? minDuration then minDuration
  else if maxDuration <? d then maxDuration
  else d.

Definition Time_Add (t : Time) (d : Duration) : Time := t + d.

(** [t.Unix()]: whole seconds since the epoch. *)
Definition Time_Unix (t : Time) : Z := t / Second.

(** [net/http] status codes. *)
Definition StatusOK : Z := 200.
Definition StatusAccepted : Z := 202.
Definition StatusResetContent : Z := 205.
Definition StatusTooManyRequests : Z := 429.
Definition StatusInternalServerError : Z := 500.

Definition MethodGet : string := "GET".
Definition MethodPost : string := "POST".
Definition MethodDelete : string := "DELETE".

Definition StatusText (code : Z) : string :=
  if code =? StatusTooManyRequests then "Too Many Requests"
  else if code =? StatusOK then "OK"
  else if code =? StatusAccepted then "Accepted"
  else if code =? StatusInternalServerError then "Internal Server Error"
  else "".

(** [http.Header]: the keys the code uses ("X-Pending", "Authorization")
    are already in canonical form. *)
Definition Header : Type := gmap string (list string).

Definition Header_Get (h : Header) (key : string) : string :=
  match h !! key with
  | Some (v :: _) => v
  | _ => ""
  end.

Definition Header_Set (h : Header) (key value : string) : Header :=
  <[key := [value]]> h.

(** [strings.TrimRight(s, cutset)]: drop every trailing character that
    occurs in [cutset]. *)
Fixpoint in_cutset (c : ascii) (cutset : string) : bool :=
  match cutset with
  | EmptyString => false
  | String d rest => Ascii.eqb c d || in_cutset c rest
  end.

Fixpoint strings_TrimRight (s cutset : string) : string :=
  match s with
  | EmptyString => EmptyString
  | String c rest =>
      match strings_TrimRight rest cutset with
      | EmptyString => if in_cutset c cutset then EmptyString else String c EmptyString
      | t => String c t
      end
  end.

(** [strings.Split(s, sep)] for a separator of one character: the pieces
    between the separators, in order; never the empty list. *)
Fixpoint strings_Split (s : string) (sep : ascii) : list string :=
  match s with
  | EmptyString => [EmptyString]
  | String c rest =>
      if Ascii.eqb c sep then EmptyString :: strings_Split rest sep
      else match strings_Split rest sep with
           | piece :: pieces => String c piece :: pieces
           | [] => [String c EmptyString]
           end
  end.

(** The result of a call: it returns a value and a new state, panics, or
    blocks its goroutine for ever (the state is the one it blocks in). *)
Inductive Res (S A : Type) : Type :=
| Ok (a : A) (s : S)
| Panic (msg : string)
| Blocked (s : S).
Arguments Ok {S A} a s.
Arguments Panic {S A} msg.
Arguments Blocked {S A} s.

Definition M (S A : Type) : Type := S -> Res S A.

Definition ret {S A} (a : A) : M S A := fun s => Ok a s.

Definition bind {S A B} (m : M S A) (k : A -> M S B) : M S B :=
  fun s =>
    match m s with
    | Ok a s' => k a s'
    | Panic msg => Panic msg
    | Blocked s' => Blocked s'
    end.

Definition panic {S A} (msg : string) : M S A := fun _ => Panic msg.
Definition block {S A} : M S A := fun s => Blocked s.

Definition nilDeref : string :=
  "invalid memory address or nil pointer dereference".

End Go.

Declare Scope go_scope.
Delimit Scope go_scope with go.
Notation "x <- m ;; k" := (Go.bind m (fun x => k))
  (at level 100, m at next level, k at level 200, right associativity) : go_scope.
Notation "m ;;; k" := (Go.bind m (fun _ => k))
  (at level 100, k at level 200, right associativity) : go_scope.

(** ** [package middleware] *)

Module Middleware.
Import Go.
Local Open Scope Z_scope.
Local Open Scope go_scope.

(** *** Requests, response writers and handlers *)

(** The parts of [*http.Request] the middleware reads: [hr.Method],
    [hr.URL.Path], [hr.Header], and the value stored in [hr.Context()]
    under [requestIDKey] when it is a string. *)
Record Request : Type := mkRequest {
  Method : string;
  URL_Path : string;
  ReqHeader : Header;
  ctxRequestID : option string
}.

(** An [http.ResponseWriter].  [negroni] tells whether its dynamic type
    implements [negroni.ResponseWriter], so that [hw.(negroni.ResponseWriter)]
    succeeds; [status] is what [res.Status()] then returns. *)
Record ResponseWriter : Type := mkResponseWriter {
  negroni : bool;
  status : Z;
  RespHeader : Header;
  body : string
}.

(** [http.HandlerFunc]: the downstream handler writes to the response
    writer it is given. *)
Definition HandlerFunc : Type := ResponseWriter -> Request -> ResponseWriter.

(** [http.Error(w, error, code)]. *)
Definition http_Error (w : ResponseWriter) (error : string) (code : Z) : ResponseWriter :=
  {| negroni := negroni w;
     status := code;
     RespHeader :=
       Header_Set (Header_Set (RespHeader w)
                     "Content-Type" "text/plain; charset=utf-8")
                  "X-Content-Type-Options" "nosniff";
     body := (body w ++ error ++ String (ascii_of_nat 10) EmptyString)%string |}.

(** [GetRequestID] of request_id.go: the failed type assertion yields
    the empty string. *)
Definition GetRequestID (ctx : option string) : string :=
  match ctx with
  | Some reqID => reqID
  | None => ""
  end.

(** *** The limiter and the package state *)

(** Channels and heap locations are named by numbers.  A [*ReqLimiter]
    is a [ptr]: [None] is the nil pointer. *)
Abbreviation chan := nat (only parsing).
Abbreviation loc := nat (only parsing).
Abbreviation ptr := (option nat) (only parsing).

(** [lock] is the state of the [sync.RWMutex] (held or free); [stop] is
    [None] for the nil channel. *)
Record ReqLimiter : Type := mkReqLimiter {
  maxcount : Z;
  servingCount : Z;
  reqRecvCount : Z;
  requestCache : gmap string Time;
  lock : bool;
  stop : option chan
}.

(** The state the package's code runs in: the limiters allocated so far,
    the package variable [tr], the wall clock read by [throttleNow] and
    [time.Now], the channels made so far, the [Cleanup] goroutines
    waiting in their [select] (each with its [stop] channel and its
    [ct]), and the requests the downstream handlers were called with. *)
Record World : Type := mkWorld {
  heap : list ReqLimiter;
  tr : ptr;
  now : Time;
  nchan : nat;
  sweepers : list (chan * Duration);
  served : list Request
}.

Definition init : World :=
  {| heap := []; tr := None; now := 0; nchan := 0; sweepers := []; served := [] |}.

Definition set_heap (h : list ReqLimiter) (w : World) : World :=
  {| heap := h; tr := tr w; now := now w; nchan := nchan w;
     sweepers := sweepers w; served := served w |}.

Definition set_tr (p : ptr) (w : World) : World :=
  {| heap := heap w; tr := p; now := now w; nchan := nchan w;
     sweepers := sweepers w; served := served w |}.

Definition set_now (t : Time) (w : World) : World :=
  {| heap := heap w; tr := tr w; now := t; nchan := nchan w;
     sweepers := sweepers w; served := served w |}.

Definition set_nchan (n : nat) (w : World) : World :=
  {| heap := heap w; tr := tr w; now := now w; nchan := n;
     sweepers := sweepers w; served := served w |}.

Definition set_sweepers (l : list (chan * Duration)) (w : World) : World :=
  {| heap := heap w; tr := tr w; now := now w; nchan := nchan w;
     sweepers := l; served := served w |}.

Definition set_served (l : list Request) (w : World) : World :=
  {| heap := heap w; tr := tr w; now := now w; nchan := nchan w;
     sweepers := sweepers w; served := l |}.

Definition set_servingCount (v : Z) (x : ReqLimiter) : ReqLimiter :=
  {| maxcount := maxcount x; servingCount := v; reqRecvCount := reqRecvCount x;
     requestCache := requestCache x; lock := lock x; stop := stop x |}.

Definition set_reqRecvCount (v : Z) (x : ReqLimiter) : ReqLimiter :=
  {| maxcount := maxcount x; servingCount := servingCount x; reqRecvCount := v;
     requestCache := requestCache x; lock := lock x; stop := stop x |}.

Definition set_requestCache (m : gmap string Time) (x : ReqLimiter) : ReqLimiter :=
  {| maxcount := maxcount x; servingCount := servingCount x;
     reqRecvCount := reqRecvCount x; requestCache := m; lock := lock x;
     stop := stop x |}.

Definition set_lock (b : bool) (x : ReqLimiter) : ReqLimiter :=
  {| maxcount := maxcount x; servingCount := servingCount x;
     reqRecvCount := reqRecvCount x; requestCache := requestCache x; lock := b;
     stop := stop x |}.

Definition set_stop (c : option chan) (x : ReqLimiter) : ReqLimiter :=
  {| maxcount := maxcount x; servingCount := servingCount x;
     reqRecvCount := reqRecvCount x; requestCache := requestCache x;
     lock := lock x; stop := c |}.

(** Reading and writing through a pointer; a nil pointer panics. *)
Definition load (r : ptr) : M World ReqLimiter :=
  fun w =>
    match r with
    | None => Panic nilDeref
    | Some l =>
        match heap w !! l with
        | Some x => Ok x w
        | None => Panic nilDeref
        end
    end.

Definition store (r : ptr) (x : ReqLimiter) : M World unit :=
  fun w =>
    match r with
    | None => Panic nilDeref
    | Some l =>
        match heap w !! l with
        | Some _ => Ok tt (set_heap (<[l := x]> (heap w)) w)
        | None => Panic nilDeref
        end
    end.

(** [&ReqLimiter{...}]: a new limiter at a new location. *)
Definition alloc (x : ReqLimiter) : M World ptr :=
  fun w => Ok (Some (length (heap w))) (set_heap (heap w ++ [x]) w).

(** The package variable [tr]. *)
Definition get_tr : M World ptr := fun w => Ok (tr w) w.

(** [throttleNow()] and [time.Now()]. *)
Definition time_Now : M World Time := fun w => Ok (now w) w.

(** [next(hw, hr)]. *)
Definition call (next : HandlerFunc) (hw : ResponseWriter) (hr : Request)
  : M World ResponseWriter :=
  fun w => Ok (next hw hr) (set_served (served w ++ [hr]) w).

(** [r.lock.Lock()] waits while the lock is held; [r.lock.Unlock()] of a
    free lock is a fatal error. *)
Definition Lock (r : ptr) : M World unit :=
  x <- load r ;;
  if lock x then block else store r (set_lock true x).

Definition Unlock (r : ptr) : M World unit :=
  x <- load r ;;
  if lock x then store r (set_lock false x)
  else panic "sync: unlock of unlocked mutex".

(** *** http_throttling.go *)

(** [reachedMaxRequest]: [r.servingCount >= r.maxcount], under the lock. *)
Definition reachedMaxRequest (r : ptr) : M World bool :=
  Lock r ;;;
  x <- load r ;;
  Unlock r ;;;
  ret (maxcount x <=? servingCount x).

(** [reqReceivedcount]: [r.reqRecvCount >= r.maxcount], under the lock. *)
Definition reqReceivedcount (r : ptr) : M World bool :=
  Lock r ;;;
  x <- load r ;;
  Unlock r ;;;
  ret (maxcount x <=? reqRecvCount x).

(** [incRequest]: [r.requestCache[reqid] = throttleNow(); r.servingCount++]. *)
Definition incRequest (r : ptr) (reqid : string) : M World unit :=
  Lock r ;;;
  x <- load r ;;
  t <- time_Now ;;
  store r (set_requestCache (<[reqid := t]> (requestCache x)) x) ;;;
  y <- load r ;;
  store r (set_servingCount (uint32 (servingCount y + 1)) y) ;;;
  Unlock r.

(** [decRequest]: [delete(r.requestCache, reqid); r.servingCount--]. *)
Definition decRequest (r : ptr) (reqid : string) : M World unit :=
  Lock r ;;;
  x <- load r ;;
  store r (set_requestCache (delete reqid (requestCache x)) x) ;;;
  y <- load r ;;
  store r (set_servingCount (uint32 (servingCount y - 1)) y) ;;;
  Unlock r.

(** [incRecvCount]: [r.reqRecvCount++]. *)
Definition incRecvCount (r : ptr) : M World unit :=
  Lock r ;;;
  x <- load r ;;
  store r (set_reqRecvCount (uint32 (reqRecvCount x + 1)) x) ;;;
  Unlock r.

(** [decRecvCount]: [r.reqRecvCount--]. *)
Definition decRecvCount (r : ptr) : M World unit :=
  Lock r ;;;
  x <- load r ;;
  store r (set_reqRecvCount (uint32 (reqRecvCount x - 1)) x) ;;;
  Unlock r.

(** The composite literal of [NewHTTPThrottler]. *)
Definition newLimiter (count : Z) : ReqLimiter :=
  {| maxcount := count; servingCount := 0; reqRecvCount := 0;
     requestCache := ∅; lock := false; stop := None |}.

(** [NewHTTPThrottler]: one limiter is stored in [tr], another one is
    returned. *)
Definition NewHTTPThrottler (count : Z) : M World ptr :=
  g <- alloc (newLimiter count) ;;
  (fun w => Ok tt (set_tr g w)) ;;;
  alloc (newLimiter count).

(** [isSuccess]. *)
Definition isSuccess (st : Z) : bool :=
  if (StatusOK <=? st) && (st <? StatusResetContent) then true else false.

(** [ServeHTTP].  Every access to the limiter goes through [tr]; the
    receiver [r] is not used.  The [logger] calls are left out. *)
Definition ServeHTTP (r : ptr) (hw : ResponseWriter) (hr : Request)
    (next : HandlerFunc) : M World ResponseWriter :=
  if String.eqb (Method hr) MethodPost || String.eqb (Method hr) MethodDelete then
    p <- get_tr ;; incRecvCount p ;;;
    p <- get_tr ;; full <- reachedMaxRequest p ;;
    free <- (if full then ret false
             else p <- get_tr ;; over <- reqReceivedcount p ;; ret (negb over)) ;;
    if free then
      hw' <- call next hw hr ;;
      if negb (negroni hw) then ret hw'
      else
        (if status hw' =? StatusAccepted then
           let reqID := GetRequestID (ctxRequestID hr) in
           if negb (String.eqb reqID "") then
             p <- get_tr ;; incRequest p reqID
           else ret tt
         else ret tt) ;;;
        p <- get_tr ;; decRecvCount p ;;;
        ret hw'
    else
      let hw' := http_Error hw (StatusText StatusTooManyRequests)
                   StatusTooManyRequests in
      p <- get_tr ;; decRecvCount p ;;;
      ret hw'
  else if String.eqb (Method hr) MethodGet then
    hw' <- call next hw hr ;;
    if negb (negroni hw) then ret hw'
    else
      let path := strings_TrimRight (URL_Path hr) "/" in
      let urlPart := strings_Split path "/" in
      if (3 <=? length urlPart)%nat then
        if isSuccess (status hw') || (status hw' =? StatusInternalServerError) then
          match urlPart !! 2%nat with
          | Some reqID =>
              p <- get_tr ;; x <- load p ;;
              match requestCache x !! reqID with
              | Some _ =>
                  if negb (String.eqb (Header_Get (ReqHeader hr) "X-Pending") "true")
                  then p <- get_tr ;; decRequest p reqID ;;; ret hw'
                  else ret hw'
              | None => ret hw'
              end
          | None => ret hw'
          end
        else ret hw'
      else ret hw'
  else
    call next hw hr.

(** [Cleanup], in three parts.  [Cleanup_start] is the code before the
    loop: the ticker (a non-positive [ct] panics in [time.NewTicker]),
    the new channel, [tr.stop = stop]; the goroutine then waits in its
    [select].  [Cleanup_tick] is the body of [case <-t.C] and [Stop]
    below delivers [case <-stop]. *)
Definition make_chan : M World chan :=
  fun w => Ok (nchan w) (set_nchan (S (nchan w)) w).

Definition Cleanup_start (r : ptr) (ct : Duration) : M World chan :=
  if ct <=? 0 then panic "non-positive interval for NewTicker"
  else
    c <- make_chan ;;
    p <- get_tr ;; x <- load p ;; store p (set_stop (Some c) x) ;;;
    (fun w => Ok tt (set_sweepers (sweepers w ++ [(c, ct)]) w)) ;;;
    ret c.

(** One pass of [for reqID, value := range tr.requestCache]: an entry
    whose age [time.Now().Sub(value)] exceeds [ct] is deleted and
    [tr.servingCount] is decremented. *)
Definition sweep_entry (t : Time) (ct : Duration) (reqID : string) (value : Time)
    (x : ReqLimiter) : ReqLimiter :=
  if ct <? Time_Sub t value then
    set_servingCount (uint32 (servingCount x - 1))
      (set_requestCache (delete reqID (requestCache x)) x)
  else x.

Definition Cleanup_tick (ct : Duration) : M World unit :=
  p <- get_tr ;; Lock p ;;;
  p <- get_tr ;; x <- load p ;;
  t <- time_Now ;;
  store p (map_fold (sweep_entry t ct) x (requestCache x)) ;;;
  p <- get_tr ;; Unlock p.

(** [Stop]: [tr.stop <- true].  A send on the nil channel blocks for
    ever, and so does a send on a channel nobody receives from; the send
    is received by the [Cleanup] goroutine waiting on that channel, which
    then returns.  No channel is ever closed. *)
Definition receiving (c : chan) (l : list (chan * Duration)) : bool :=
  existsb (fun s => Nat.eqb (fst s) c) l.

Definition Stop (r : ptr) : M World unit :=
  p <- get_tr ;; x <- load p ;;
  match stop x with
  | None => block
  | Some c =>
      fun w =>
        if receiving c (sweepers w)
        then Ok tt (set_sweepers
                      (filter (fun s => fst s ≠ c) (sweepers w)) w)
        else Blocked w
  end.

(** [time.Sleep], or any other passing of time between two calls. *)
Definition elapse (d : Duration) : M World unit :=
  fun w => Ok tt (set_now (Time_Add (now w) d) w).

(** *** request_id.go *)

(** [r.WithContext(ctx)]. *)
Definition WithContext (r : Request) (ctx : option string) : Request :=
  {| Method := Method r; URL_Path := URL_Path r; ReqHeader := ReqHeader r;
     ctxRequestID := ctx |}.

(** [AddRequestID]: the context of [r] with a new identifier under
    [requestIDKey].  [utils.GenUUID] is not part of these sources: what
    it returns in this call is the argument [uuid]. *)
Definition AddRequestID (r : Request) (uuid : string) : option string :=
  Some uuid.

(** [RequestID.ServeHTTP].  The receiver has no field; [next] is the
    rest of the chain of handlers and may be another middleware. *)
Definition RequestID_ServeHTTP (uuid : string) (w : ResponseWriter) (r : Request)
    (next : ResponseWriter -> Request -> M World ResponseWriter)
  : M World ResponseWriter :=
  if String.eqb (Method r) MethodPost || String.eqb (Method r) MethodDelete then
    let newCtx := AddRequestID r uuid in
    next w (WithContext r newCtx)
  else if String.eqb (Method r) MethodGet then
    let path := strings_TrimRight (URL_Path r) "/" in
    let urlPart := strings_Split path "/" in
    if (4 <=? length urlPart)%nat then
      match urlPart !! 1%nat, urlPart !! 3%nat with
      | Some kind, Some action =>
          if String.eqb kind "devices" && String.eqb action "resync" then
            let newCtx := AddRequestID r uuid in
            next w (WithContext r newCtx)
          else next w r
      | _, _ => next w r
      end
    else next w r
  else next w r.

End Middleware.

(** ** [package client] *)

Module Client.
Import Go.
Local Open Scope Z_scope.
Local Open Scope go_scope.

Definition MAX_CONCURRENT_REQUESTS : nat := 32.
Definition const_retryCount : Z := 1000.

Definition error : Type := string.

(** The [Client] object.  Its [throttle] channel is made with capacity
    [MAX_CONCURRENT_REQUESTS]; the number of values the channel holds is
    part of the state [Net] below. *)
Record Client : Type := mkClient {
  host : string;
  key : string;
  user : string;
  retryCount : Z
}.

Definition NewClientWithRetry (host user key : string) (retryCount : Z) : Client :=
  {| host := host; key := key; user := user; retryCount := retryCount |}.

Definition NewClient (host user key : string) : Client :=
  NewClientWithRetry host user key const_retryCount.

(** The parts of [*http.Request] and [*http.Response] the client uses.
    [Body = None] is the nil body. *)
Record Request : Type := mkRequest {
  Method : string;
  URL_Path : string;
  ReqHeader : Header;
  Body : option string
}.

Record Response : Type := mkResponse {
  StatusCode : Z;
  RespHeader : Header;
  RespBody : string
}.

Definition set_ReqHeader (h : Header) (r : Request) : Request :=
  {| Method := Method r; URL_Path := URL_Path r; ReqHeader := h; Body := Body r |}.

Definition set_Body (b : option string) (r : Request) : Request :=
  {| Method := Method r; URL_Path := URL_Path r; ReqHeader := ReqHeader r; Body := b |}.

(** What the program does to the outside, in the order it does it: a
    request handed to [httpClient.Do] (with the time of the call), a
    response body drained and closed, a [time.Sleep]. *)
Inductive Event : Type :=
| Sent (req : Request) (t : Time)
| Discarded (r : Response)
| Slept (d : Duration).

(** The state the client runs in: the wall clock, what the calls of
    [httpClient.Do] will return, one after the other, the numbers the
    random source will yield, the number of values in [c.throttle], and
    the events so far. *)
Record Net : Type := mkNet {
  now : Time;
  script : list (Response + error);
  rng : list Z;
  throttle : nat;
  log : list Event
}.

Definition set_now (t : Time) (w : Net) : Net :=
  {| now := t; script := script w; rng := rng w; throttle := throttle w;
     log := log w |}.

Definition set_script (l : list (Response + error)) (w : Net) : Net :=
  {| now := now w; script := l; rng := rng w; throttle := throttle w;
     log := log w |}.

Definition set_rng (l : list Z) (w : Net) : Net :=
  {| now := now w; script := script w; rng := l; throttle := throttle w;
     log := log w |}.

Definition set_throttle (n : nat) (w : Net) : Net :=
  {| now := now w; script := script w; rng := rng w; throttle := n;
     log := log w |}.

Definition emit (e : Event) (w : Net) : Net :=
  {| now := now w; script := script w; rng := rng w; throttle := throttle w;
     log := log w ++ [e] |}.

Definition time_Now : M Net Time := fun w => Ok (now w) w.

(** [time.Sleep(d)]: a non-positive [d] returns at once. *)
Definition time_Sleep (d : Duration) : M Net unit :=
  fun w => Ok tt (emit (Slept d) (set_now (Time_Add (now w) (Z.max d 0)) w)).

(** [rand.Intn(n)]: a number in [0, n); it panics when [n <= 0]. *)
Definition rand_Intn (n : Z) : M Net Z :=
  fun w =>
    if n <=? 0 then Panic "invalid argument to Intn"
    else match rng w with
         | x :: rest => Ok (x mod n) (set_rng rest w)
         | [] => Ok 0 w
         end.

(** [httpClient.Do(req)]: the request goes out and the next answer of
    the script comes back. *)
Definition httpClient_Do (req : Request) : M Net (Response + error) :=
  fun w =>
    let w' := emit (Sent req (now w)) w in
    match script w with
    | a :: rest => Ok a (set_script rest w')
    | [] => Ok (inr "EOF"%string) w'
    end.

(** [io.Copy(ioutil.Discard, r.Body); r.Body.Close()]. *)
Definition discard (r : Response) : M Net unit :=
  fun w => Ok tt (emit (Discarded r) w).

(** [c.throttle <- true] waits while the channel is full;
    [<-c.throttle] takes one value out. *)
Definition acquire : M Net unit :=
  fun w =>
    if (throttle w <? MAX_CONCURRENT_REQUESTS)%nat
    then Ok tt (set_throttle (S (throttle w)) w)
    else Blocked w.

Definition release : M Net unit :=
  fun w =>
    match throttle w with
    | S n => Ok tt (set_throttle n w)
    | O => Blocked w
    end.

(** The claims of the token, and the two library calls that make it:
    SHA-256 of a string in hexadecimal, and the HS256 signature of the
    claims under a key ([token.SignedString]). *)
Record MapClaims : Type := mkClaims {
  iss : string;
  iat : Z;
  exp : Z;
  qsh : string
}.

Class Crypto : Type := {
  sha256_hex : string -> string;
  SignedString : MapClaims -> string -> string + error
}.

Section WithCrypto.
Context `{crypto : Crypto}.

(** [do]: one call under the throttle. *)
Definition do (c : Client) (req : Request) : M Net (Response + error) :=
  acquire ;;;
  r <- httpClient_Do req ;;
  release ;;;
  ret r.

(** The token [setToken] makes for a method and a path at a time. *)
Definition token_claims (c : Client) (method path : string) (t1 t2 : Time) : MapClaims :=
  {| iss := user c;
     iat := Time_Unix t1;
     exp := Time_Unix (Time_Add t2 (5 * Minute));
     qsh := sha256_hex (method ++ "&" ++ path)%string |}.

(** [setToken]: the request with its new Authorization header, and the
    error. *)
Definition setToken (c : Client) (r : Request) : M Net (Request * option error) :=
  t1 <- time_Now ;;
  t2 <- time_Now ;;
  let token := token_claims c (Method r) (URL_Path r) t1 t2 in
  match SignedString token (key c) with
  | inr err => ret (r, Some err)
  | inl signedtoken =>
      ret (set_ReqHeader
             (Header_Set (ReqHeader r) "Authorization" ("bearer " ++ signedtoken)%string)
             r, None)
  end.

(** [checkRedirect]: called by [net/http] before it follows a redirect,
    with the request it is about to send. *)
Definition checkRedirect (c : Client) (req : Request) (via : list Request)
  : M Net (Request * option error) :=
  setToken c req.

(** [random]. *)
Definition random (min max : Z) : M Net Z :=
  n <- rand_Intn (max - min) ;;
  ret (n + min).

(** [retryOperationDo]: [retryLoop n] is the [for] loop with [n]
    iterations left. *)
Fixpoint retryLoop (n : nat) (c : Client) (req : Request) (requestBody : string)
  : M Net (option Response * option error) :=
  match n with
  | O => ret (None, Some "Failed to complete requested operation"%string)
  | S n' =>
      let req := set_Body (Some requestBody) req in
      a <- do c req ;;
      match a with
      | inr err => ret (None, Some err)
      | inl r =>
          if StatusCode r =? StatusTooManyRequests then
            discard r ;;;
            num <- random 10 40 ;;
            time_Sleep (Second * num) ;;;
            retryLoop n' c req requestBody
          else ret (Some r, None)
      end
  end.

Definition retryOperationDo (c : Client) (req : Request) (requestBody : string)
  : M Net (option Response * option error) :=
  retryLoop (Z.to_nat (retryCount c)) c req requestBody.

End WithCrypto.

(** The calls of [net/http], [net/url] and [heketi/pkg/utils] that the
    remaining functions make: the path of a URL given as a string, or
    the error of parsing it; [location.String()] for the value of a
    Location header, resolved against the request of the response; and
    the error [utils.GetErrorFromResponse] makes of a response. *)
Class Http : Type := {
  url_Parse : string -> string + error;
  url_Resolve : Response -> string -> string + error;
  GetErrorFromResponse : Response -> error
}.

Section WithHttp.
Context `{crypto : Crypto} `{http : Http}.

(** [http.NewRequest(method, url, nil)]. *)
Definition http_NewRequest (method url : string) : Request + error :=
  match url_Parse url with
  | inl path =>
      inl {| Method := method; URL_Path := path; ReqHeader := ∅; Body := None |}
  | inr err => inr err
  end.

(** [r.Location()], as the string [location.String()]. *)
Definition Response_Location (r : Response) : string + error :=
  let lv := Header_Get (RespHeader r) "Location" in
  if String.eqb lv "" then inr "http: no Location header in response"%string
  else url_Resolve r lv.

(** [NewClientNoAuth]. *)
Definition NewClientNoAuth (host : string) : Client := NewClient host "" "".

(** [Hello]: the error it returns, [None] for nil. *)
Definition Hello (c : Client) : M Net (option error) :=
  match http_NewRequest "GET" (host c ++ "/hello") with
  | inr err => ret (Some err)
  | inl req =>
      p <- setToken c req ;;
      match snd p with
      | Some err => ret (Some err)
      | None =>
          a <- do c (fst p) ;;
          match a with
          | inr err => ret (Some err)
          | inl r =>
              if negb (StatusCode r =? StatusOK)
              then ret (Some (GetErrorFromResponse r))
              else ret None
          end
      end
  end.

(** The [for] loop of [waitForResponseWithTimer].  The loop of the
    source has no bound; [fuel] is the number of polls the model
    follows, and the result is [None] when the loop is still running
    after that many. *)
Fixpoint pollLoop (fuel : nat) (c : Client) (location : string) (waitTime : Duration)
  : M Net (option (option Response * option error)) :=
  match fuel with
  | O => ret None
  | S fuel' =>
      match http_NewRequest "GET" location with
      | inr err => ret (Some (None, Some err))
      | inl req =>
          p <- setToken c req ;;
          match snd p with
          | Some err => ret (Some (None, Some err))
          | None =>
              a <- do c (fst p) ;;
              match a with
              | inr err => ret (Some (None, Some err))
              | inl r =>
                  if String.eqb (Header_Get (RespHeader r) "X-Pending") "true" then
                    if negb (StatusCode r =? StatusOK)
                    then ret (Some (None, Some (GetErrorFromResponse r)))
                    else time_Sleep waitTime ;;;
                         pollLoop fuel' c location waitTime
                  else ret (Some (Some r, None))
              end
          end
      end
  end.

(** [waitForResponseWithTimer]. *)
Definition waitForResponseWithTimer (fuel : nat) (c : Client) (r : Response)
    (waitTime : Duration) : M Net (option (option Response * option error)) :=
  match Response_Location r with
  | inr err => ret (Some (None, Some err))
  | inl location => pollLoop fuel c location waitTime
  end.

End WithHttp.

End Client.

(** * Vocabulary of the properties *)

(** ** For the throttling middleware *)

Module ThrottleSpec.
Import Go Middleware.
Local Open Scope Z_scope.
Local Open Scope go_scope.

(** ** Vocabulary *)

(** [tr] points to the limiter [x] at location [l]. *)
Definition installed (w : World) (l : loc) (x : ReqLimiter) : Prop :=
  tr w = Some l /\ heap w !! l = Some x.

(** The limiter [tr] points to. *)
Definition global (w : World) : option ReqLimiter :=
  match tr w with
  | Some l => heap w !! l
  | None => None
  end.

(** [w] with the limiter at [l] replaced by [x]. *)
Definition put (l : loc) (x : ReqLimiter) (w : World) : World :=
  set_heap (<[l := x]> (heap w)) w.

(** [w] after a downstream handler was called with [hr]. *)
Definition serve (hr : Request) (w : World) : World :=
  set_served (served w ++ [hr]) w.

(** The [case http.MethodPost, http.MethodDelete] of [ServeHTTP]. *)
Definition mutating (hr : Request) : bool :=
  String.eqb (Method hr) MethodPost || String.eqb (Method hr) MethodDelete.

(** The third piece of the trimmed path: [urlPart[2]]. *)
Definition polled (hr : Request) : option string :=
  strings_Split (strings_TrimRight (URL_Path hr) "/") "/" !! 2%nat.

(** What the four counting methods do to the limiter. *)
Definition recvInc (x : ReqLimiter) : ReqLimiter :=
  set_reqRecvCount (uint32 (reqRecvCount x + 1)) x.

Definition recvDec (x : ReqLimiter) : ReqLimiter :=
  set_reqRecvCount (uint32 (reqRecvCount x - 1)) x.

Definition record (reqid : string) (t : Time) (x : ReqLimiter) : ReqLimiter :=
  set_servingCount (uint32 (servingCount x + 1))
    (set_requestCache (<[reqid := t]> (requestCache x)) x).

Definition forget (reqid : string) (x : ReqLimiter) : ReqLimiter :=
  set_servingCount (uint32 (servingCount x - 1))
    (set_requestCache (delete reqid (requestCache x)) x).

(** The record a poll removes, if any: the conditions of the [GET] case
    of [ServeHTTP], in its order. *)
Definition poll_target (x : ReqLimiter) (hw hw' : ResponseWriter) (hr : Request)
  : option string :=
  if negroni hw then
    let urlPart := strings_Split (strings_TrimRight (URL_Path hr) "/") "/" in
    if (3 <=? length urlPart)%nat then
      if isSuccess (status hw') || (status hw' =? StatusInternalServerError) then
        match urlPart !! 2%nat with
        | Some reqID =>
            match requestCache x !! reqID with
            | Some _ =>
                if negb (String.eqb (Header_Get (ReqHeader hr) "X-Pending") "true")
                then Some reqID else None
            | None => None
            end
        | None => None
        end
      else None
    else None
  else None.

(** A record is stale at time [t] when its age exceeds [ct]. *)
Definition expired (t : Time) (ct : Duration) (kv : string * Time) : Prop :=
  ct < Time_Sub t kv.2.

#[global] Instance expired_dec t ct kv : Decision (expired t ct kv).
Proof. unfold expired. apply _. Defined.

(** [servingCount--]. *)
Definition dec32 (s : Z) : Z := uint32 (s - 1).

(** A result with its final state changed by [f]. *)
Definition res_map {A} (f : World -> World) (r : Res World A) : Res World A :=
  match r with
  | Ok a w => Ok a (f w)
  | Panic msg => Panic msg
  | Blocked w => Blocked (f w)
  end.

(** [m], run where [tr = p], leaves [tr] alone, changes no limiter but
    the one [p] points to, and does not depend on what the other
    limiters hold. *)
Definition only_at {A} (p : ptr) (m : M World A) : Prop :=
  forall w, tr w = p ->
    match m w with
    | Ok _ w' | Blocked w' =>
        tr w' = p /\ forall l, p <> Some l -> heap w' !! l = heap w !! l
    | Panic _ => True
    end
    /\ forall l y, p <> Some l -> m (put l y w) = res_map (put l y) (m w).

(** The same for the value of [tr] at the time of the call. *)
Definition touches_only_tr {A} (m : M World A) : Prop :=
  forall w, only_at (tr w) m.

(** ** Sequences of operations *)

(** What can happen to the package, one operation after the other: a
    limiter is constructed, a request is served, a [Cleanup] goroutine
    is started, the ticker of the [Cleanup] goroutine waiting on
    channel [c] fires, [Stop] is called, time passes. *)
Inductive Op : Type :=
| OpNew (count : Z)
| OpServe (r : ptr) (hw : ResponseWriter) (hr : Request) (next : HandlerFunc)
| OpCleanup (r : ptr) (ct : Duration)
| OpTick (c : chan)
| OpStop (r : ptr)
| OpElapse (d : Duration).

Definition void {A} (m : M World A) : M World unit := _ <- m ;; ret tt.

Definition ticker_of (c : chan) (l : list (chan * Duration)) : option Duration :=
  snd <$> List.find (fun s => Nat.eqb (fst s) c) l.

Definition exec (o : Op) : M World unit :=
  match o with
  | OpNew count => void (NewHTTPThrottler count)
  | OpServe r hw hr next => void (ServeHTTP r hw hr next)
  | OpCleanup r ct => void (Cleanup_start r ct)
  | OpTick c =>
      fun w =>
        match ticker_of c (sweepers w) with
        | Some ct => Cleanup_tick ct w
        | None => Ok tt w
        end
  | OpStop r => Stop r
  | OpElapse d => elapse d
  end.

(** The arguments have the types the code gives them: [count] is a
    [uint32]. *)
Definition typed (o : Op) (w : World) : bool :=
  match o with
  | OpNew count => (0 <=? count) && (count <? 2 ^ 32)
  | _ => true
  end.

(** The identifier a mutating request carries is not in the registry:
    what the fresh UUID of [AddRequestID] gives. *)
Definition fresh_id (o : Op) (w : World) : bool :=
  match o with
  | OpServe _ _ hr _ =>
      if mutating hr then
        match global w with
        | Some x =>
            bool_decide (requestCache x !! GetRequestID (ctxRequestID hr) = None)
        | None => true
        end
      else true
  | _ => true
  end.

(** [run ok ops w]: the state after [ops], each of which must pass
    [ok]; a goroutine that blocks stays behind and the others go on;
    [None] after a panic. *)
Fixpoint run (ok : Op -> World -> bool) (ops : list Op) (w : World) : option World :=
  match ops with
  | [] => Some w
  | o :: rest =>
      if ok o w then
        match exec o w with
        | Ok _ w' | Blocked w' => run ok rest w'
        | Panic _ => None
        end
      else None
  end.

(** ** Example values *)

Definition hw0 : ResponseWriter :=
  {| negroni := true; status := 0; RespHeader := ∅; body := "" |}.

(** A response writer that is not a [negroni.ResponseWriter]. *)
Definition hw_plain : ResponseWriter :=
  {| negroni := false; status := 0; RespHeader := ∅; body := "" |}.

Definition post_abc : Request :=
  {| Method := "POST"; URL_Path := "/volumes"; ReqHeader := ∅;
     ctxRequestID := Some "abc"%string |}.

Definition post_xyz : Request :=
  {| Method := "POST"; URL_Path := "/volumes"; ReqHeader := ∅;
     ctxRequestID := Some "xyz"%string |}.

Definition poll_abc : Request :=
  {| Method := "GET"; URL_Path := "/queue/abc"; ReqHeader := ∅;
     ctxRequestID := None |}.

(** A handler that starts the work and answers 202 Accepted. *)
Definition accept : HandlerFunc :=
  fun hw _ =>
    {| negroni := negroni hw; status := StatusAccepted;
       RespHeader := RespHeader hw; body := body hw |}.

(** A status handler whose job is still running: 200 with
    [X-Pending: true]. *)
Definition still_pending : HandlerFunc :=
  fun hw _ =>
    {| negroni := negroni hw; status := StatusOK;
       RespHeader := Header_Set (RespHeader hw) "X-Pending" "true";
       body := body hw |}.

(** A status handler whose job is done: 200 without the header. *)
Definition finished : HandlerFunc :=
  fun hw _ =>
    {| negroni := negroni hw; status := StatusOK;
       RespHeader := RespHeader hw; body := body hw |}.

(** A limiter at rest: its lock is free, [maxcount] is a [uint32], and
    [servingCount] is the size of the registry and at most [maxcount]. *)
Definition limiter_ok (x : ReqLimiter) : Prop :=
  lock x = false /\ is_uint32 (maxcount x)
  /\ servingCount x = Z.of_nat (size (requestCache x))
  /\ servingCount x <= maxcount x.

Definition Inv (w : World) : Prop :=
  match tr w with
  | Some l => exists x, heap w !! l = Some x /\ limiter_ok x
  | None => True
  end.

(** The condition under which the sequences of the invariant run. *)
Definition typed_fresh (o : Op) (w : World) : bool := typed o w && fresh_id o w.

Definition busy_day : list Op :=
  [ OpNew 2;
    OpServe None hw0 post_abc accept;
    OpServe None hw0 post_xyz accept;
    OpServe None hw0 poll_abc finished;
    OpCleanup None 3;
    OpElapse 5;
    OpTick 0%nat;
    OpStop None ].

(** Scenario E: [ct] is one second, a record was made at time 0 and two
    seconds have passed. *)
Definition stale_limiter : ReqLimiter :=
  {| maxcount := 4; servingCount := 2; reqRecvCount := 0;
     requestCache := {[ "abc"%string := 0; "xyz"%string := 1500000000 ]};
     lock := false; stop := Some 0%nat |}.

Definition stale_world : World :=
  {| heap := [stale_limiter];
     tr := Some 0%nat; now := 2 * Second; nchan := 1;
     sweepers := [(0%nat, Second)]; served := [] |}.

(** The state after scenario B, and a second completion poll. *)
Definition polled_limiter : ReqLimiter :=
  {| maxcount := 2; servingCount := 1; reqRecvCount := 0;
     requestCache := {[ "xyz"%string := 0 ]};
     lock := false; stop := None |}.

Definition polled_world : World :=
  {| heap := [polled_limiter; newLimiter 2]; tr := Some 0%nat; now := 0;
     nchan := 0; sweepers := [];
     served := [post_abc; post_xyz; poll_abc] |}.

(** A limiter whose sweeper was never started; one whose sweeper runs;
    one whose sweeper was stopped. *)
Definition world_after (ops : list Op) : World :=
  default init (run typed ops init).

Definition never_started : World := world_after [OpNew 4].

Definition sweeping : World := world_after [OpNew 4; OpCleanup None Second].

Definition stopped : World :=
  world_after [OpNew 4; OpCleanup None Second; OpStop None].

(** A limiter is constructed and holds a record; a second limiter is
    constructed; a request comes in at the receiver that was returned
    first. *)
Definition one_limiter : World := world_after [OpNew 2].

Definition one_record : World :=
  world_after [OpNew 2; OpServe (Some 1%nat) hw0 post_abc accept].

Definition second_limiter : World :=
  world_after [OpNew 2; OpServe (Some 1%nat) hw0 post_abc accept; OpNew 7].

Definition second_record : World :=
  world_after [OpNew 2; OpServe (Some 1%nat) hw0 post_abc accept; OpNew 7;
               OpServe (Some 1%nat) hw0 post_xyz accept].

(** [s] has no character [c]. *)
Fixpoint free_of (c : ascii) (s : string) : bool :=
  match s with
  | EmptyString => true
  | String d rest => negb (Ascii.eqb d c) && free_of c rest
  end.

(** [hr] with another path. *)
Definition with_path (path : string) (hr : Request) : Request :=
  {| Method := Method hr; URL_Path := path; ReqHeader := ReqHeader hr;
     ctxRequestID := ctxRequestID hr |}.

(** The limiter as the next handler of a chain. *)
Definition limiter (p : option nat) (next : HandlerFunc)
  : ResponseWriter -> Request -> M World ResponseWriter :=
  fun hw hr => ServeHTTP p hw hr next.

Definition resync_abc : Request :=
  {| Method := "GET"; URL_Path := "/devices/abc/resync"; ReqHeader := ∅;
     ctxRequestID := None |}.

End ThrottleSpec.

(** ** For the retrying client *)

Module RetrySpec.
Import Go Client.
Local Open Scope Z_scope.
Local Open Scope go_scope.

Definition overloaded (r : Response) : Prop := StatusCode r = StatusTooManyRequests.

(** The bounds [random(10, 40)] keeps, in seconds turned into a
    duration. *)
Definition in_jitter (d : Duration) : Prop := 10 * Second <= d < 40 * Second.

(** The events of the attempts that were answered with an overload: the
    request goes out, the body of the answer is discarded, the client
    sleeps. *)
Fixpoint retry_events (req : Request) (t : Time) (rounds : list (Response * Duration))
  : list Event :=
  match rounds with
  | [] => []
  | (r, d) :: rest =>
      Sent req t :: Discarded r :: Slept d :: retry_events req (Time_Add t d) rest
  end.

Definition total (ds : list Duration) : Duration := fold_right Z.add 0 ds.

(** The requests of a list of events. *)
Definition sent_requests (evs : list Event) : list Request :=
  flat_map (fun e => match e with Sent rq _ => [rq] | _ => [] end) evs.

(** A stand-in for the two library calls, for examples: the "hash" is
    the string itself and the "signature" spells out the claims, the
    issue time in unary. *)
Definition toy_crypto : Crypto :=
  {| sha256_hex := fun s => s;
     SignedString := fun claims key =>
       inl (key ++ "." ++ iss claims ++ "." ++ qsh claims ++ "."
            ++ String.concat "" (repeat "i"%string (Z.to_nat (iat claims))))%string |}.

(** Scenario D: three overloads, then 200; the random source yields 7,
    45 and 29. *)
Definition busy : Response :=
  {| StatusCode := StatusTooManyRequests; RespHeader := ∅;
     RespBody := "Too Many Requests" |}.

Definition created : Response :=
  {| StatusCode := StatusOK; RespHeader := ∅; RespBody := "{}" |}.

Definition volume_create : Request :=
  {| Method := "POST"; URL_Path := "/volumes"; ReqHeader := ∅; Body := None |}.

Definition scenario_D : Net :=
  {| now := 0; script := [inl busy; inl busy; inl busy; inl created];
     rng := [7; 45; 29]; throttle := 0; log := [] |}.

(** One overload, then 200; the random source yields 7, so the second
    attempt goes out 17 seconds after the first. *)
Definition heketi_client : Client := NewClient "http://heketi" "admin" "secret".

Definition one_overload : Net :=
  {| now := 0; script := [inl busy; inl created]; rng := [7]; throttle := 0;
     log := [] |}.

(** The request as the caller signed it at time 0. *)
Definition signed_create : Request :=
  set_ReqHeader
    (Header_Set ∅ "Authorization" "bearer secret.admin.POST&/volumes.") volume_create.

Definition after_retry : Net :=
  {| now := 17 * Second; script := []; rng := []; throttle := 0;
     log := [ Sent (set_Body (Some "{size:10}"%string) signed_create) 0;
              Discarded busy;
              Slept (17 * Second);
              Sent (set_Body (Some "{size:10}"%string) signed_create) (17 * Second) ] |}.

(** The state after one call of [do]. *)
Definition after_do (req : Request) (w : Net) : Net :=
  {| now := now w; script := tl (script w); rng := rng w; throttle := throttle w;
     log := log w ++ [Sent req (now w)] |}.

(** A transport error after one overload. *)
Definition refused : Net :=
  {| now := 0; script := [inl busy; inr "connection refused"%string];
     rng := [7]; throttle := 0; log := [] |}.

(** Nothing but overloads. *)
Definition impatient : Client := NewClientWithRetry "http://heketi" "admin" "secret" 2.

Definition always_busy : Net :=
  {| now := 0; script := [inl busy; inl busy; inl created]; rng := [7; 45];
     throttle := 0; log := [] |}.

(** The answers to a status poll: the header [X-Pending: true] says the
    operation is still running. *)
Definition pending (r : Response) : Prop :=
  Header_Get (RespHeader r) "X-Pending" = "true"%string.

Definition in_progress (r : Response) : Prop :=
  pending r /\ StatusCode r = StatusOK.

Section Polls.
Context `{crypto : Crypto}.

(** The [GET] of [path] with a token made at [t]. *)
Definition signed_get (c : Client) (path : string) (t : Time) : Request :=
  {| Method := "GET"; URL_Path := path;
     ReqHeader :=
       match SignedString (token_claims c "GET" path t t) (key c) with
       | inl s => Header_Set ∅ "Authorization" ("bearer " ++ s)%string
       | inr _ => ∅
       end;
     Body := None |}.

(** The events of [n] polls that were answered "still running", the
    first at [t]. *)
Fixpoint poll_events (c : Client) (path : string) (t : Time) (waitTime : Duration)
    (n : nat) : list Event :=
  match n with
  | O => []
  | S n' =>
      Sent (signed_get c path t) t :: Slept waitTime
      :: poll_events c path (Time_Add t (Z.max waitTime 0)) waitTime n'
  end.

(** The library signs every token of [c] for [path]. *)
Definition signs (c : Client) (path : string) : Prop :=
  forall t, exists s,
    SignedString (token_claims c "GET" path t t) (key c) = inl s.

End Polls.

(** A stand-in for the calls of [net/url] and [utils], for examples:
    every non-empty string is a URL and its own path, and the error of
    a response is its body. *)
Definition toy_http : Http :=
  {| url_Parse := fun s =>
       if String.eqb s "" then inr "empty url"%string else inl s;
     url_Resolve := fun _ lv => inl lv;
     GetErrorFromResponse := fun r => RespBody r |}.

Definition queued : Response :=
  {| StatusCode := StatusAccepted;
     RespHeader := Header_Set ∅ "Location" "/queue/abc"; RespBody := "" |}.

Definition working : Response :=
  {| StatusCode := StatusOK; RespHeader := Header_Set ∅ "X-Pending" "true";
     RespBody := "" |}.

Definition broken : Response :=
  {| StatusCode := StatusInternalServerError;
     RespHeader := Header_Set ∅ "X-Pending" "true";
     RespBody := "volume create failed" |}.

Definition two_polls : Net :=
  {| now := 0; script := [inl working; inl working; inl created]; rng := [];
     throttle := 0; log := [] |}.

Definition failing_poll : Net :=
  {| now := 0; script := [inl working; inl broken]; rng := [];
     throttle := 0; log := [] |}.

Definition hello_ok : Net :=
  {| now := 0; script := [inl created]; rng := []; throttle := 0; log := [] |}.

Definition full_house : Net :=
  {| now := 0; script := [inl created]; rng := [];
     throttle := MAX_CONCURRENT_REQUESTS; log := [] |}.

End RetrySpec.

(** * Properties of the monad of calls *)

Module GoProps.
Import Go.

(** A step that returns lets the rest of the computation run. *)
Lemma bind_Ok {S A B} (m : M S A) (k : A -> M S B) w a w' :
  m w = Ok a w' -> bind m k w = k a w'.
Proof. intros E. unfold bind. now rewrite E. Qed.

End GoProps.

(** * Properties of the throttling middleware *)

Module ThrottleProps.
Import Go Middleware ThrottleSpec GoProps.
Local Open Scope Z_scope.
Local Open Scope go_scope.

(** ** Loads, stores and the critical sections *)

Lemma load_at w l x : heap w !! l = Some x -> load (Some l) w = Ok x w.
Proof. intros E. unfold load. now rewrite E. Qed.

Lemma store_at w l x y :
  heap w !! l = Some x -> store (Some l) y w = Ok tt (put l y w).
Proof. intros E. unfold store. now rewrite E. Qed.

Lemma heap_put w l x y :
  heap w !! l = Some x -> heap (put l y w) !! l = Some y.
Proof.
  intros E. unfold put. cbn. apply list_lookup_insert_eq.
  now apply lookup_lt_Some in E.
Qed.

Lemma put_put w l y z : put l z (put l y w) = put l z w.
Proof. unfold put, set_heap. cbn. now rewrite list_insert_insert_eq. Qed.

Lemma put_same w l x : heap w !! l = Some x -> put l x w = w.
Proof.
  intros E. unfold put, set_heap. rewrite list_insert_id by exact E.
  now destruct w.
Qed.

Lemma installed_put w l x y : installed w l x -> installed (put l y w) l y.
Proof. intros [T E]. split; [exact T | now apply heap_put with x]. Qed.

Lemma installed_global w l x : installed w l x -> global w = Some x.
Proof. intros [T E]. unfold global. now rewrite T. Qed.

Lemma global_installed w x : global w = Some x -> exists l, installed w l x.
Proof.
  unfold global, installed. destruct (tr w) as [l|]; [| discriminate].
  intros E. now exists l.
Qed.

Lemma call_eq next hw hr w : call next hw hr w = Ok (next hw hr) (serve hr w).
Proof. reflexivity. Qed.

Lemma serve_put l y hr w : serve hr (put l y w) = put l y (serve hr w).
Proof. reflexivity. Qed.

Lemma get_tr_eq w p : tr w = p -> get_tr w = Ok p w.
Proof. intros <-. reflexivity. Qed.

Lemma Lock_free w l x :
  heap w !! l = Some x -> lock x = false ->
  Lock (Some l) w = Ok tt (put l (set_lock true x) w).
Proof.
  intros E F. unfold Lock. rewrite (bind_Ok _ _ _ _ _ (load_at _ _ _ E)).
  rewrite F. now apply store_at with x.
Qed.

Lemma Unlock_held w l x :
  heap w !! l = Some x -> lock x = true ->
  Unlock (Some l) w = Ok tt (put l (set_lock false x) w).
Proof.
  intros E F. unfold Unlock. rewrite (bind_Ok _ _ _ _ _ (load_at _ _ _ E)).
  rewrite F. now apply store_at with x.
Qed.

(** Taking the lock, changing the limiter by [f] and releasing the lock
    amounts to [f], for an [f] that does not look at the lock. *)
Lemma unlock_lock (f : ReqLimiter -> ReqLimiter) x :
  lock x = false ->
  (forall b y, f (set_lock b y) = set_lock b (f y)) ->
  set_lock false (f (set_lock true x)) = f x.
Proof.
  intros F C. rewrite C. destruct (f x) eqn:E.
  assert (L : lock (f x) = false).
  { rewrite <- F. specialize (C (lock x) x).
    replace (set_lock (lock x) x) with x in C by now destruct x.
    rewrite C. reflexivity. }
  rewrite E in L. cbn in L. subst. reflexivity.
Qed.

(** One step of a critical section on the limiter found by [E]. *)
Ltac crit E F :=
  repeat first
    [ erewrite bind_Ok by (eapply Lock_free; [eapply E | exact F])
    | erewrite bind_Ok by (eapply load_at; first [eapply heap_put; eapply E | eapply E])
    | erewrite bind_Ok by (eapply store_at; first [eapply heap_put; eapply E | eapply E])
    | erewrite bind_Ok by (eapply Unlock_held; [eapply heap_put; eapply E | reflexivity])
    | erewrite bind_Ok by reflexivity
    | rewrite put_put ].

(** The next statement reads [tr], which is [T]. *)
Ltac go_tr T := erewrite bind_Ok by (apply get_tr_eq; exact T).

Lemma reachedMaxRequest_eq w l x :
  heap w !! l = Some x -> lock x = false ->
  reachedMaxRequest (Some l) w = Ok (maxcount x <=? servingCount x) w.
Proof.
  intros E F. unfold reachedMaxRequest. crit E F.
  unfold ret. cbn. f_equal.
  rewrite (unlock_lock (fun y => y)) by easy. now apply put_same.
Qed.

Lemma reqReceivedcount_eq w l x :
  heap w !! l = Some x -> lock x = false ->
  reqReceivedcount (Some l) w = Ok (maxcount x <=? reqRecvCount x) w.
Proof.
  intros E F. unfold reqReceivedcount. crit E F.
  unfold ret. cbn. f_equal.
  rewrite (unlock_lock (fun y => y)) by easy. now apply put_same.
Qed.

Lemma incRecvCount_eq w l x :
  heap w !! l = Some x -> lock x = false ->
  incRecvCount (Some l) w = Ok tt (put l (recvInc x) w).
Proof.
  intros E F. unfold incRecvCount. crit E F.
  erewrite Unlock_held by (first [eapply heap_put; eapply E | reflexivity]).
  rewrite put_put. do 2 f_equal.
  now apply (unlock_lock recvInc).
Qed.

Lemma decRecvCount_eq w l x :
  heap w !! l = Some x -> lock x = false ->
  decRecvCount (Some l) w = Ok tt (put l (recvDec x) w).
Proof.
  intros E F. unfold decRecvCount. crit E F.
  erewrite Unlock_held by (first [eapply heap_put; eapply E | reflexivity]).
  rewrite put_put. do 2 f_equal.
  now apply (unlock_lock recvDec).
Qed.

Lemma incRequest_eq w l x reqid :
  heap w !! l = Some x -> lock x = false ->
  incRequest (Some l) reqid w = Ok tt (put l (record reqid (now w) x) w).
Proof.
  intros E F. unfold incRequest. crit E F.
  erewrite Unlock_held by (first [eapply heap_put; eapply E | reflexivity]).
  rewrite put_put. do 2 f_equal.
  now apply (unlock_lock (record reqid (now w))).
Qed.

Lemma decRequest_eq w l x reqid :
  heap w !! l = Some x -> lock x = false ->
  decRequest (Some l) reqid w = Ok tt (put l (forget reqid x) w).
Proof.
  intros E F. unfold decRequest. crit E F.
  erewrite Unlock_held by (first [eapply heap_put; eapply E | reflexivity]).
  rewrite put_put. do 2 f_equal.
  now apply (unlock_lock (forget reqid)).
Qed.

(** ** What [ServeHTTP] does, case by case *)

Lemma ServeHTTP_mutating r hw hr next w l x :
  installed w l x -> lock x = false -> mutating hr = true ->
  ServeHTTP r hw hr next w =
    let x1 := recvInc x in
    if (maxcount x <=? servingCount x) || (maxcount x <=? reqRecvCount x1) then
      Ok (http_Error hw (StatusText StatusTooManyRequests) StatusTooManyRequests)
         (put l (recvDec x1) w)
    else
      let hw' := next hw hr in
      if negroni hw then
        let x2 :=
          if (status hw' =? StatusAccepted)
             && negb (String.eqb (GetRequestID (ctxRequestID hr)) "")
          then record (GetRequestID (ctxRequestID hr)) (now w) x1 else x1 in
        Ok hw' (put l (recvDec x2) (serve hr w))
      else Ok hw' (put l x1 (serve hr w)).
Proof.
  intros [T E] F Hm. unfold ServeHTTP. fold (mutating hr). rewrite Hm.
  go_tr T.
  erewrite bind_Ok by (eapply incRecvCount_eq; [exact E | exact F]).
  go_tr T.
  pose proof (heap_put w l x (recvInc x) E) as E1.
  assert (F1 : lock (recvInc x) = false) by exact F.
  erewrite bind_Ok by (eapply reachedMaxRequest_eq; [exact E1 | exact F1]).
  cbn [maxcount servingCount recvInc set_reqRecvCount].
  destruct (maxcount x <=? servingCount x) eqn:Hfull.
  - erewrite bind_Ok by reflexivity. cbn [orb].
    go_tr T.
    erewrite bind_Ok by (eapply decRecvCount_eq; [exact E1 | exact F1]).
    rewrite put_put. reflexivity.
  - erewrite bind_Ok.
    2:{ go_tr T.
        erewrite bind_Ok by (eapply reqReceivedcount_eq; [exact E1 | exact F1]).
        reflexivity. }
    cbn [orb reqRecvCount recvInc set_reqRecvCount maxcount].
    destruct (maxcount x <=? uint32 (reqRecvCount x + 1)) eqn:Hover; cbn [negb].
    + go_tr T.
      erewrite bind_Ok by (eapply decRecvCount_eq; [exact E1 | exact F1]).
      rewrite put_put. reflexivity.
    + erewrite bind_Ok by apply call_eq.
      rewrite serve_put.
      assert (E2 : heap (put l (recvInc x) (serve hr w)) !! l = Some (recvInc x))
        by exact E1.
      assert (T2 : tr (serve hr w) = Some l) by exact T.
      destruct (negroni hw); cbn [negb]; [| reflexivity].
      cbn zeta.
      destruct (status (next hw hr) =? StatusAccepted); cbn [andb].
      * destruct (String.eqb (GetRequestID (ctxRequestID hr)) ""); cbn [negb].
        -- erewrite bind_Ok by reflexivity.
           go_tr T2.
           erewrite bind_Ok by (eapply decRecvCount_eq; [exact E2 | exact F1]).
           unfold ret. rewrite put_put. reflexivity.
        -- erewrite bind_Ok.
           2:{ go_tr T2. eapply incRequest_eq; [exact E2 | exact F1]. }
           rewrite put_put.
           go_tr T2.
           erewrite bind_Ok.
           2:{ eapply decRecvCount_eq; [eapply heap_put; exact E | exact F1]. }
           unfold ret. rewrite !put_put. reflexivity.
      * erewrite bind_Ok by reflexivity.
        go_tr T2.
        erewrite bind_Ok by (eapply decRecvCount_eq; [exact E2 | exact F1]).
        unfold ret. rewrite put_put. reflexivity.
Qed.

Lemma ServeHTTP_get r hw hr next w l x :
  installed w l x -> Method hr = MethodGet ->
  ServeHTTP r hw hr next w =
    match poll_target x hw (next hw hr) hr with
    | Some reqID =>
        (decRequest (Some l) reqID ;;; ret (next hw hr)) (serve hr w)
    | None => Ok (next hw hr) (serve hr w)
    end.
Proof.
  intros [T E] Hm. unfold ServeHTTP, poll_target. rewrite Hm.
  cbn [String.eqb MethodGet MethodPost MethodDelete Ascii.eqb Bool.eqb orb andb].
  erewrite bind_Ok by apply call_eq.
  assert (E2 : heap (serve hr w) !! l = Some x) by exact E.
  assert (T2 : tr (serve hr w) = Some l) by exact T.
  destruct (negroni hw); cbn [negb]; [| reflexivity].
  cbn zeta.
  destruct (3 <=? length _)%nat; [| reflexivity].
  destruct (isSuccess _ || _); [| reflexivity].
  destruct (_ !! 2%nat) as [reqID|]; [| reflexivity].
  go_tr T2.
  erewrite bind_Ok by (eapply load_at; exact E2).
  destruct (requestCache x !! reqID); [| reflexivity].
  destruct (String.eqb _ "true"); cbn [negb]; [reflexivity |].
  go_tr T2. reflexivity.
Qed.

Lemma ServeHTTP_get_free r hw hr next w l x :
  installed w l x -> lock x = false -> Method hr = MethodGet ->
  ServeHTTP r hw hr next w =
    Ok (next hw hr)
       (match poll_target x hw (next hw hr) hr with
        | Some reqID => put l (forget reqID x) (serve hr w)
        | None => serve hr w
        end).
Proof.
  intros I F Hm. rewrite (ServeHTTP_get r hw hr next w l x I Hm).
  destruct (poll_target _ _ _ _) as [reqID|]; [| reflexivity].
  destruct I as [T E].
  erewrite bind_Ok by (eapply decRequest_eq; [exact E | exact F]).
  reflexivity.
Qed.

Lemma ServeHTTP_other r hw hr next w :
  mutating hr = false -> String.eqb (Method hr) MethodGet = false ->
  ServeHTTP r hw hr next w = Ok (next hw hr) (serve hr w).
Proof.
  intros Hm Hg. unfold ServeHTTP. fold (mutating hr). now rewrite Hm, Hg.
Qed.

(** ** The sweeper *)

Lemma sweep_entry_lock t ct k v b y :
  sweep_entry t ct k v (set_lock b y) = set_lock b (sweep_entry t ct k v y).
Proof. unfold sweep_entry. now destruct (ct <? Time_Sub t v). Qed.

Lemma sweep_fold_lock t ct b x (m : gmap string Time) :
  map_fold (sweep_entry t ct) (set_lock b x) m
  = set_lock b (map_fold (sweep_entry t ct) x m).
Proof. apply map_fold_comm_acc. intros. apply sweep_entry_lock. Qed.

(** The loop over a map [m], started from the limiter [a]: the stale
    entries of [m] are deleted from the registry of [a], with one
    decrement each; the rest of [a] stays. *)
Lemma sweep_fold_spec t ct a (m : gmap string Time) :
  let r := map_fold (sweep_entry t ct) a m in
  (forall k, requestCache r !! k =
             match m !! k with
             | Some v => if ct <? Time_Sub t v then None else requestCache a !! k
             | None => requestCache a !! k
             end)
  /\ servingCount r = Nat.iter (size (filter (expired t ct) m)) dec32 (servingCount a)
  /\ maxcount r = maxcount a /\ reqRecvCount r = reqRecvCount a
  /\ lock r = lock a /\ stop r = stop a.
Proof.
  cbv zeta.
  apply (map_fold_weak_ind (fun r m =>
    (forall k, requestCache r !! k =
             match m !! k with
             | Some v => if ct <? Time_Sub t v then None else requestCache a !! k
             | None => requestCache a !! k
             end)
  /\ servingCount r = Nat.iter (size (filter (expired t ct) m)) dec32 (servingCount a)
  /\ maxcount r = maxcount a /\ reqRecvCount r = reqRecvCount a
  /\ lock r = lock a /\ stop r = stop a)).
  - rewrite map_filter_empty, map_size_empty. cbn. repeat split.
  - clear m. intros i v m r Hi (Hc & Hs & Hm & Hr & Hl & Hst).
    unfold sweep_entry.
    destruct (ct <? Time_Sub t v) eqn:Hx; cbn.
    + apply Z.ltb_lt in Hx.
      rewrite map_filter_insert_True by exact Hx.
      rewrite map_size_insert_None by (rewrite map_lookup_filter_None; left; exact Hi).
      cbn. rewrite Hs. repeat split; try assumption.
      intros k. destruct (decide (i = k)) as [->|Hne].
      * rewrite lookup_delete_eq, lookup_insert_eq.
        apply Z.ltb_lt in Hx. now rewrite Hx.
      * rewrite lookup_delete_ne, lookup_insert_ne by exact Hne. apply Hc.
    + apply Z.ltb_ge in Hx.
      rewrite map_filter_insert_False by (unfold expired; cbn; lia).
      rewrite delete_id by exact Hi.
      repeat split; try assumption.
      intros k. destruct (decide (i = k)) as [->|Hne].
      * rewrite lookup_insert_eq. specialize (Hc k). rewrite Hi in Hc.
        rewrite Hc. apply Z.ltb_ge in Hx. now rewrite Hx.
      * rewrite lookup_insert_ne by exact Hne. apply Hc.
Qed.

(** The registry after the loop is the registry without its stale
    entries. *)
Lemma sweep_registry t ct x :
  requestCache (map_fold (sweep_entry t ct) x (requestCache x))
  = filter (fun kv => ~ expired t ct kv) (requestCache x).
Proof.
  destruct (sweep_fold_spec t ct x (requestCache x)) as (Hc & _).
  apply map_eq. intros k. rewrite Hc.
  destruct (requestCache x !! k) as [v|] eqn:Hk.
  - destruct (ct <? Time_Sub t v) eqn:Hx.
    + symmetry. apply map_lookup_filter_None. right. intros v' Hv'.
      rewrite Hk in Hv'. injection Hv' as <-.
      unfold expired. cbn. apply Z.ltb_lt in Hx. lia.
    + symmetry. apply map_lookup_filter_Some. split; [exact Hk |].
      unfold expired. cbn. apply Z.ltb_ge in Hx. lia.
  - symmetry. apply map_lookup_filter_None. now left.
Qed.

Lemma size_filter_split t ct (m : gmap string Time) :
  (size (filter (fun kv => ~ expired t ct kv) m)
   + size (filter (expired t ct) m))%nat = size m.
Proof.
  rewrite Nat.add_comm.
  rewrite <- (map_filter_union_complement (expired t ct) m) at 3.
  rewrite map_size_disj_union by apply map_disjoint_filter_complement.
  reflexivity.
Qed.

Lemma uint32_small z : is_uint32 z -> uint32 z = z.
Proof. unfold uint32, is_uint32. intros H. now apply Z.mod_small. Qed.

(** [n] decrements of a counter that holds at least [n] do not wrap. *)
Lemma iter_dec32 (n : nat) (s : Z) :
  Z.of_nat n <= s < 2 ^ 32 -> Nat.iter n dec32 s = s - Z.of_nat n.
Proof.
  induction n as [|n IH]; intros H.
  - cbn. lia.
  - change (Nat.iter (S n) dec32 s) with (dec32 (Nat.iter n dec32 s)).
    rewrite IH by lia. unfold dec32. rewrite uint32_small.
    + lia.
    + unfold is_uint32. lia.
Qed.

Lemma uint32_idem z : uint32 (uint32 z) = uint32 z.
Proof. unfold uint32. apply Z.mod_mod. lia. Qed.

(** In general [n] decrements subtract [n] modulo 2^32. *)
Lemma iter_dec32_wrap (n : nat) (s : Z) :
  is_uint32 s -> Nat.iter n dec32 s = uint32 (s - Z.of_nat n).
Proof.
  intros Hs. induction n as [|n IH].
  - cbn. rewrite Z.sub_0_r. symmetry. now apply uint32_small.
  - change (Nat.iter (S n) dec32 s) with (dec32 (Nat.iter n dec32 s)).
    rewrite IH. unfold dec32, uint32.
    rewrite Zminus_mod_idemp_l. f_equal. lia.
Qed.

Lemma Cleanup_tick_eq ct w l x :
  installed w l x -> lock x = false ->
  Cleanup_tick ct w
  = Ok tt (put l (map_fold (sweep_entry (now w) ct) x (requestCache x)) w).
Proof.
  intros [T E] F. unfold Cleanup_tick.
  go_tr T.
  erewrite bind_Ok by (eapply Lock_free; [exact E | exact F]).
  pose proof (heap_put w l x (set_lock true x) E) as E1.
  go_tr T.
  erewrite bind_Ok by (eapply load_at; exact E1).
  erewrite bind_Ok by reflexivity.
  erewrite bind_Ok by (eapply store_at; exact E1).
  rewrite put_put.
  go_tr T.
  cbn [requestCache set_lock now put set_heap].
  rewrite sweep_fold_lock.
  erewrite Unlock_held by (first [eapply heap_put; exact E | reflexivity]).
  rewrite put_put. do 2 f_equal.
  destruct (sweep_fold_spec (now w) ct x (requestCache x))
    as (_ & _ & _ & _ & Hl & _).
  rewrite F in Hl.
  destruct (map_fold _ x _) as [a b c d e g]. cbn in *. now subst.
Qed.

Lemma Cleanup_start_eq r ct w l x :
  installed w l x -> 0 < ct ->
  Cleanup_start r ct w
  = Ok (nchan w)
       (set_sweepers (sweepers w ++ [(nchan w, ct)])
          (put l (set_stop (Some (nchan w)) x) (set_nchan (S (nchan w)) w))).
Proof.
  intros [T E] Hct. unfold Cleanup_start.
  destruct (ct <=? 0) eqn:Hle; [apply Z.leb_le in Hle; lia |].
  erewrite bind_Ok by reflexivity.
  assert (T1 : tr (set_nchan (S (nchan w)) w) = Some l) by exact T.
  assert (E1 : heap (set_nchan (S (nchan w)) w) !! l = Some x) by exact E.
  go_tr T1.
  erewrite bind_Ok by (eapply load_at; exact E1).
  erewrite bind_Ok by (eapply store_at; exact E1).
  erewrite bind_Ok by reflexivity.
  reflexivity.
Qed.

(** [Stop] with [tr] in place: the send is delivered to the goroutine
    that waits on [tr.stop], or it blocks. *)
Lemma Stop_eq r w l x :
  installed w l x ->
  Stop r w =
    match stop x with
    | Some c =>
        if receiving c (sweepers w)
        then Ok tt (set_sweepers (filter (fun s => fst s <> c) (sweepers w)) w)
        else Blocked w
    | None => Blocked w
    end.
Proof.
  intros [T E]. unfold Stop.
  go_tr T.
  erewrite bind_Ok by (eapply load_at; exact E).
  now destruct (stop x).
Qed.

Lemma receiving_filter c (l : list (chan * Duration)) :
  receiving c (filter (fun s => fst s <> c) l) = false.
Proof.
  unfold receiving. induction l as [|s l IH]; [reflexivity |].
  rewrite filter_cons. destruct (decide (s.1 ≠ c)) as [Hne|Heq].
  - cbn [existsb]. rewrite IH. apply Nat.eqb_neq in Hne.
    rewrite orb_false_r. exact Hne.
  - exact IH.
Qed.

(** ** Only the limiter behind [tr] is used *)

Lemma only_at_ret {A} p (a : A) : only_at p (ret a).
Proof. intros w Hw. split; [now split | reflexivity]. Qed.

Lemma only_at_panic {A} p msg : only_at p (@panic World A msg).
Proof. intros w Hw. split; [exact I | reflexivity]. Qed.

Lemma only_at_block {A} p : only_at p (@block World A).
Proof. intros w Hw. split; [now split | reflexivity]. Qed.

Lemma only_at_bind {A B} p (m : M World A) (k : A -> M World B) :
  only_at p m -> (forall a, only_at p (k a)) -> only_at p (bind m k).
Proof.
  intros Hm Hk w Hw. destruct (Hm w Hw) as [Fm Nm]. unfold bind. split.
  - destruct (m w) as [a w1| |w1]; [| exact I | exact Fm].
    destruct Fm as [T1 H1]. destruct (Hk a w1 T1) as [Fk _].
    destruct (k a w1) as [b w2| |w2]; [| exact I |].
    + destruct Fk as [T2 H2]. split; [exact T2 |].
      intros l Hl. now rewrite H2, H1.
    + destruct Fk as [T2 H2]. split; [exact T2 |].
      intros l Hl. now rewrite H2, H1.
  - intros l y Hl. rewrite (Nm l y Hl).
    destruct (m w) as [a w1| |w1]; [| reflexivity | reflexivity].
    cbn [res_map]. destruct Fm as [T1 _].
    destruct (Hk a w1 T1) as [_ Nk]. now apply Nk.
Qed.

Lemma only_at_get_tr {A} p (k : ptr -> M World A) :
  only_at p (k p) -> only_at p (bind get_tr k).
Proof.
  intros Hk w Hw. unfold bind, get_tr. rewrite Hw. cbn [tr put set_heap].
  destruct (Hk w Hw) as [Fk Nk]. split; [exact Fk |].
  intros l y Hl. rewrite Hw. now apply Nk.
Qed.

Lemma only_at_load p : only_at p (load p).
Proof.
  intros w Hw. unfold load. destruct p as [l'|].
  - split.
    + destruct (heap w !! l'); [now split | exact I].
    + intros l y Hl. cbn [heap put set_heap].
      rewrite list_lookup_insert_ne by (intros ->; now apply Hl).
      now destruct (heap w !! l').
  - split; [exact I | reflexivity].
Qed.

Lemma only_at_store p x : only_at p (store p x).
Proof.
  intros w Hw. unfold store. destruct p as [l'|].
  - split.
    + destruct (heap w !! l'); [| exact I]. split; [exact Hw |].
      intros l Hl. cbn [heap set_heap].
      apply list_lookup_insert_ne. intros ->. now apply Hl.
    + intros l y Hl. cbn [heap put set_heap].
      rewrite list_lookup_insert_ne by (intros ->; now apply Hl).
      destruct (heap w !! l'); [| reflexivity].
      cbn [res_map]. unfold put, set_heap. cbn.
      rewrite list_insert_insert_ne by (intros ->; now apply Hl). reflexivity.
  - split; [exact I | reflexivity].
Qed.

(** A step that reads and writes neither [tr] nor the heap. *)
Lemma only_at_aside {A} p (m : M World A) :
  (forall w, match m w with
             | Ok _ w' | Blocked w' => tr w' = tr w /\ heap w' = heap w
             | Panic _ => True
             end) ->
  (forall w l y, m (put l y w) = res_map (put l y) (m w)) ->
  only_at p m.
Proof.
  intros Hf Hn w Hw. split.
  - specialize (Hf w).
    destruct (m w) as [a w1| |w1]; [| exact I |];
      destruct Hf as [T1 H1]; (split; [congruence | intros; now rewrite H1]).
  - intros l y _. apply Hn.
Qed.

Lemma only_at_call p next hw hr : only_at p (call next hw hr).
Proof. apply only_at_aside; intros; [now split | reflexivity]. Qed.

Lemma only_at_time_Now p : only_at p time_Now.
Proof. apply only_at_aside; intros; [now split | reflexivity]. Qed.

Lemma only_at_make_chan p : only_at p make_chan.
Proof. apply only_at_aside; intros; [now split | reflexivity]. Qed.

Create HintDb only_at.

#[local] Hint Resolve only_at_ret only_at_panic only_at_block only_at_load
  only_at_store only_at_call only_at_time_Now only_at_make_chan : only_at.

(** Breaks a computation into its steps. *)
Ltac only_at_steps :=
  repeat first
    [ apply only_at_get_tr
    | apply only_at_bind; [| intros ?]
    | solve [auto with only_at]
    | match goal with
      | |- only_at _ (if ?b then _ else _) => destruct b
      | |- only_at _ (match ?o with Some _ => _ | None => _ end) => destruct o
      | |- only_at _ (let _ := _ in _) => cbv zeta
      end ].

Lemma only_at_Lock p : only_at p (Lock p).
Proof. unfold Lock. only_at_steps. Qed.

Lemma only_at_Unlock p : only_at p (Unlock p).
Proof. unfold Unlock. only_at_steps. Qed.

#[local] Hint Resolve only_at_Lock only_at_Unlock : only_at.

Lemma only_at_reachedMaxRequest p : only_at p (reachedMaxRequest p).
Proof. unfold reachedMaxRequest. only_at_steps. Qed.

Lemma only_at_reqReceivedcount p : only_at p (reqReceivedcount p).
Proof. unfold reqReceivedcount. only_at_steps. Qed.

Lemma only_at_incRequest p reqid : only_at p (incRequest p reqid).
Proof. unfold incRequest. only_at_steps. Qed.

Lemma only_at_decRequest p reqid : only_at p (decRequest p reqid).
Proof. unfold decRequest. only_at_steps. Qed.

Lemma only_at_incRecvCount p : only_at p (incRecvCount p).
Proof. unfold incRecvCount. only_at_steps. Qed.

Lemma only_at_decRecvCount p : only_at p (decRecvCount p).
Proof. unfold decRecvCount. only_at_steps. Qed.

#[local] Hint Resolve only_at_reachedMaxRequest only_at_reqReceivedcount
  only_at_incRequest only_at_decRequest only_at_incRecvCount
  only_at_decRecvCount : only_at.

Lemma only_at_ServeHTTP p r hw hr next : only_at p (ServeHTTP r hw hr next).
Proof. unfold ServeHTTP. only_at_steps. Qed.

Lemma only_at_Cleanup_start p r ct : only_at p (Cleanup_start r ct).
Proof.
  unfold Cleanup_start. only_at_steps.
  apply only_at_aside; intros; [now split | reflexivity].
Qed.

Lemma only_at_Cleanup_tick p ct : only_at p (Cleanup_tick ct).
Proof. unfold Cleanup_tick. only_at_steps. Qed.

Lemma only_at_Stop p r : only_at p (Stop r).
Proof.
  unfold Stop. only_at_steps.
  apply only_at_aside.
  - intros w. cbn [sweepers]. now destruct (receiving _ _).
  - intros w l y. cbn [sweepers put set_heap]. now destruct (receiving _ _).
Qed.

(** What [only_at] gives for a call that returns. *)
Lemma only_at_frame {A} (m : M World A) w a w' :
  only_at (tr w) m -> m w = Ok a w' ->
  tr w' = tr w /\ forall l, tr w <> Some l -> heap w' !! l = heap w !! l.
Proof.
  intros H E. destruct (H w eq_refl) as [F _]. now rewrite E in F.
Qed.

(** ** The registry and the serving count *)

Lemma Inv_ext w w' : tr w' = tr w -> heap w' = heap w -> Inv w -> Inv w'.
Proof. unfold Inv. intros -> ->. trivial. Qed.

Lemma Inv_put w l x y : installed w l x -> limiter_ok y -> Inv (put l y w).
Proof.
  intros [T E] Hy. unfold Inv. cbn [tr put set_heap]. rewrite T.
  exists y. split; [now apply heap_put with x | exact Hy].
Qed.

Lemma Inv_nil {A} (m : M World A) w :
  only_at (tr w) m -> tr w = None ->
  match m w with Ok _ w' | Blocked w' => Inv w' | Panic _ => True end.
Proof.
  intros H T. destruct (H w eq_refl) as [F _].
  destruct (m w) as [a w'| |w']; [| exact I |];
    destruct F as [T' _]; unfold Inv; now rewrite T', T.
Qed.

Lemma limiter_ok_recv x v : limiter_ok x -> limiter_ok (set_reqRecvCount v x).
Proof. intros H. exact H. Qed.

Lemma limiter_ok_stop x c : limiter_ok x -> limiter_ok (set_stop c x).
Proof. intros H. exact H. Qed.

Lemma limiter_ok_record x reqid t :
  limiter_ok x -> servingCount x < maxcount x ->
  requestCache x !! reqid = None ->
  limiter_ok (record reqid t x).
Proof.
  intros (L & Hm & Hs & Hle) Hlt Hfresh. unfold limiter_ok, record. cbn.
  assert (Hu : uint32 (servingCount x + 1) = servingCount x + 1).
  { apply uint32_small. unfold is_uint32 in *. lia. }
  rewrite Hu, map_size_insert_None by exact Hfresh.
  repeat split; try assumption; try apply Hm; lia.
Qed.

Lemma limiter_ok_forget x reqid :
  limiter_ok x -> is_Some (requestCache x !! reqid) ->
  limiter_ok (forget reqid x).
Proof.
  intros (L & Hm & Hs & Hle) [v Hv]. unfold limiter_ok, forget. cbn.
  pose proof (map_size_delete_Some reqid (requestCache x) (mk_is_Some _ _ Hv)) as Hd.
  assert (Hpos : (0 < size (requestCache x))%nat).
  { destruct (size (requestCache x)) eqn:Hsz; [| lia].
    apply map_size_empty_iff in Hsz. rewrite Hsz in Hv.
    now rewrite lookup_empty in Hv. }
  assert (Hu : uint32 (servingCount x - 1) = servingCount x - 1).
  { apply uint32_small. unfold is_uint32 in *. lia. }
  rewrite Hu. repeat split; try assumption; try apply Hm; lia.
Qed.

Lemma limiter_ok_sweep t ct x :
  limiter_ok x -> limiter_ok (map_fold (sweep_entry t ct) x (requestCache x)).
Proof.
  intros (L & Hm & Hs & Hle).
  destruct (sweep_fold_spec t ct x (requestCache x))
    as (_ & Hsc & Hmax & _ & Hl & _).
  pose proof (sweep_registry t ct x) as Hreg.
  pose proof (size_filter_split t ct (requestCache x)) as Hsz.
  unfold limiter_ok. rewrite Hl, Hmax, Hsc, Hreg.
  rewrite iter_dec32 by (unfold is_uint32 in *; lia).
  repeat split; try assumption; try apply Hm; lia.
Qed.

Lemma poll_target_present x hw hw' hr reqID :
  poll_target x hw hw' hr = Some reqID -> is_Some (requestCache x !! reqID).
Proof.
  unfold poll_target.
  destruct (negroni hw); [| discriminate].
  cbv zeta.
  destruct (3 <=? length _)%nat; [| discriminate].
  destruct (isSuccess _ || _); [| discriminate].
  destruct (_ !! 2%nat) as [k|]; [| discriminate].
  destruct (requestCache x !! k) eqn:Hk; [| discriminate].
  destruct (negb _); [| discriminate].
  intros [= <-]. rewrite Hk. eauto.
Qed.

Lemma void_cases {A} (m : M World A) (P : World -> Prop) w :
  match m w with Ok _ w' | Blocked w' => P w' | Panic _ => True end ->
  match void m w with Ok _ w' | Blocked w' => P w' | Panic _ => True end.
Proof. unfold void, bind, ret. now destruct (m w). Qed.

Lemma NewHTTPThrottler_eq count w :
  NewHTTPThrottler count w
  = Ok (Some (S (length (heap w))))
       (set_heap (heap w ++ [newLimiter count; newLimiter count])
          (set_tr (Some (length (heap w))) w)).
Proof.
  unfold NewHTTPThrottler, bind, alloc. cbn.
  rewrite length_app, Nat.add_comm, <- app_assoc. reflexivity.
Qed.

Lemma ServeHTTP_Inv r hw hr next w :
  Inv w -> fresh_id (OpServe r hw hr next) w = true ->
  match ServeHTTP r hw hr next w with
  | Ok _ w' | Blocked w' => Inv w'
  | Panic _ => True
  end.
Proof.
  intros HI Hfresh.
  destruct (tr w) as [l|] eqn:T.
  2:{ apply Inv_nil; [apply only_at_ServeHTTP | exact T]. }
  unfold Inv in HI. rewrite T in HI. destruct HI as (x & E & Hok).
  assert (I0 : installed w l x) by now split.
  pose proof Hok as (L & Hm & Hs & Hle).
  destruct (mutating hr) eqn:Hmut.
  - rewrite (ServeHTTP_mutating r hw hr next w l x I0 L Hmut). cbv zeta.
    destruct (maxcount x <=? servingCount x) eqn:Hfull; cbn [orb].
    { apply Inv_put with x; [exact I0 | exact Hok]. }
    destruct (maxcount x <=? reqRecvCount (recvInc x)); cbn [orb].
    { apply Inv_put with x; [exact I0 | exact Hok]. }
    apply Z.leb_gt in Hfull.
    destruct (negroni hw).
    + apply Inv_put with x; [exact I0 |].
      apply limiter_ok_recv.
      destruct ((status (next hw hr) =? StatusAccepted) && _); [| exact Hok].
      apply limiter_ok_record; [exact Hok | exact Hfull |].
      cbn [fresh_id] in Hfresh. rewrite Hmut in Hfresh.
      rewrite (installed_global w l x I0) in Hfresh.
      apply bool_decide_eq_true in Hfresh. exact Hfresh.
    + apply Inv_put with x; [exact I0 | exact Hok].
  - destruct (String.eqb (Method hr) MethodGet) eqn:Hget.
    + apply String.eqb_eq in Hget.
      rewrite (ServeHTTP_get_free r hw hr next w l x I0 L Hget).
      destruct (poll_target x hw (next hw hr) hr) as [reqID|] eqn:Hp.
      * apply Inv_put with x; [exact I0 |].
        apply limiter_ok_forget; [exact Hok |].
        now apply poll_target_present in Hp.
      * apply (Inv_ext w); [reflexivity | reflexivity |].
        unfold Inv. rewrite T. now exists x.
    + rewrite (ServeHTTP_other r hw hr next w Hmut Hget).
      apply (Inv_ext w); [reflexivity | reflexivity |].
      unfold Inv. rewrite T. now exists x.
Qed.

Lemma exec_Inv o w :
  Inv w -> typed_fresh o w = true ->
  match exec o w with Ok _ w' | Blocked w' => Inv w' | Panic _ => True end.
Proof.
  intros HI Hok. unfold typed_fresh in Hok.
  apply andb_true_iff in Hok as [Hty Hfresh].
  destruct o as [count | r hw hr next | r ct | c | r | d]; cbn [exec].
  - apply void_cases. rewrite NewHTTPThrottler_eq.
    unfold Inv. cbn [tr heap set_heap set_tr].
    exists (newLimiter count). split.
    + apply list_lookup_middle. reflexivity.
    + cbn [typed] in Hty. apply andb_true_iff in Hty as [H0 H1].
      apply Z.leb_le in H0. apply Z.ltb_lt in H1.
      unfold limiter_ok, is_uint32. cbn. rewrite map_size_empty. lia.
  - apply void_cases. now apply ServeHTTP_Inv.
  - apply void_cases.
    destruct (tr w) as [l|] eqn:T.
    2:{ apply Inv_nil; [apply only_at_Cleanup_start | exact T]. }
    unfold Inv in HI. rewrite T in HI. destruct HI as (x & E & Hx).
    destruct (Z_lt_le_dec 0 ct) as [Hct|Hct].
    + rewrite (Cleanup_start_eq r ct w l x (conj T E) Hct).
      apply (Inv_ext (put l (set_stop (Some (nchan w)) x) w));
        [reflexivity | reflexivity |].
      apply Inv_put with x; [now split | now apply limiter_ok_stop].
    + unfold Cleanup_start. apply Z.leb_le in Hct. now rewrite Hct.
  - destruct (ticker_of c (sweepers w)) as [ct|]; [| exact HI].
    destruct (tr w) as [l|] eqn:T.
    2:{ apply Inv_nil; [apply only_at_Cleanup_tick | exact T]. }
    unfold Inv in HI. rewrite T in HI. destruct HI as (x & E & Hx).
    rewrite (Cleanup_tick_eq ct w l x (conj T E) (proj1 Hx)).
    apply Inv_put with x; [now split | now apply limiter_ok_sweep].
  - destruct (tr w) as [l|] eqn:T.
    2:{ apply Inv_nil; [apply only_at_Stop | exact T]. }
    pose proof HI as HI'.
    unfold Inv in HI. rewrite T in HI. destruct HI as (x & E & Hx).
    rewrite (Stop_eq r w l x (conj T E)).
    destruct (stop x) as [c|]; [| exact HI'].
    destruct (receiving c (sweepers w)); [| exact HI'].
    now apply (Inv_ext w).
  - now apply (Inv_ext w).
Qed.

Lemma run_Inv ops : forall w w',
  Inv w -> run typed_fresh ops w = Some w' -> Inv w'.
Proof.
  induction ops as [|o ops IH]; intros w w' HI Hrun; cbn [run] in Hrun.
  - now injection Hrun as <-.
  - destruct (typed_fresh o w) eqn:Hok; [| discriminate].
    pose proof (exec_Inv o w HI Hok) as Hstep.
    destruct (exec o w) as [u w1| |w1]; [| discriminate |];
      now apply (IH w1 w').
Qed.

(** ** Admission of mutating requests *)

(** X1.  What the code decides for a mutating request: it is rejected, and
    the handler is not called, when [servingCount >= maxcount] or when
    the incremented [reqRecvCount] is [>= maxcount]; otherwise the
    handler is called. *)
Lemma mutating_request_verdict r hw hr next w l x :
  installed w l x -> lock x = false -> mutating hr = true ->
  exists hw' w',
    ServeHTTP r hw hr next w = Ok hw' w'
    /\ if (maxcount x <=? servingCount x)
          || (maxcount x <=? uint32 (reqRecvCount x + 1))
       then hw' = http_Error hw (StatusText StatusTooManyRequests)
                    StatusTooManyRequests
            /\ served w' = served w
       else hw' = next hw hr /\ served w' = served w ++ [hr].
Proof.
  intros I0 L Hm. rewrite (ServeHTTP_mutating r hw hr next w l x I0 L Hm).
  cbv zeta. cbn [reqRecvCount recvInc set_reqRecvCount].
  destruct ((maxcount x <=? servingCount x)
            || (maxcount x <=? uint32 (reqRecvCount x + 1))).
  - eexists _, _. split; [reflexivity |]. now split.
  - destruct (negroni hw); (eexists _, _; split; [reflexivity |]); now split.
Qed.

(** C1.  With [maxcount = 1] and nothing else in flight a lone [POST]
    is answered 429 Too Many Requests and the handler is never called:
    the request counts itself in [reqRecvCount] before the test
    [reqRecvCount >= maxcount].  Both counters are 0 before and after. *)
Theorem lone_request_rejected_when_maxcount_is_1 :
  exists p w0 hw' w1,
    NewHTTPThrottler 1 init = Ok p w0
    /\ (servingCount <$> global w0) = Some 0
    /\ (reqRecvCount <$> global w0) = Some 0
    /\ ServeHTTP p hw0 post_abc accept w0 = Ok hw' w1
    /\ status hw' = StatusTooManyRequests
    /\ served w1 = []
    /\ (servingCount <$> global w1) = Some 0
    /\ (reqRecvCount <$> global w1) = Some 0.
Proof.
  eexists _, _, _, _. split; [reflexivity |].
  split; [reflexivity |]. split; [reflexivity |].
  split; [vm_compute; reflexivity |]. repeat split.
Qed.

(** ** Completion polls *)

(** C2.  A record is in the registry; a poll of its status resource is
    answered 200 with [X-Pending: true], the job is still running.  The
    record is removed all the same and [servingCount] drops to 0: the
    code looks for the header in the request ([hr.Header]), where it
    never is, and not in the response. *)
Theorem pending_poll_removes_the_record :
  exists p w0 hw1 w1 hw2 w2,
    NewHTTPThrottler 5 init = Ok p w0
    /\ ServeHTTP p hw0 post_abc accept w0 = Ok hw1 w1
    /\ ((fun x => requestCache x !! "abc"%string) <$> global w1) = Some (Some 0)
    /\ (servingCount <$> global w1) = Some 1
    /\ ServeHTTP p hw0 poll_abc still_pending w1 = Ok hw2 w2
    /\ status hw2 = StatusOK
    /\ Header_Get (RespHeader hw2) "X-Pending" = "true"%string
    /\ ((fun x => requestCache x !! "abc"%string) <$> global w2) = Some None
    /\ (servingCount <$> global w2) = Some 0.
Proof.
  eexists _, _, _, _, _, _. split; [reflexivity |].
  split; [vm_compute; reflexivity |]. split; [vm_compute; reflexivity |].
  split; [reflexivity |]. split; [vm_compute; reflexivity |].
  repeat split; vm_compute; reflexivity.
Qed.

(** What the code does on a poll: the record is removed exactly when
    [poll_target] names it, that is when the writer is a
    [negroni.ResponseWriter], the trimmed path has three pieces, the
    status is in [200, 205) or 500, the third piece is in the registry
    and the request (not the response) has no [X-Pending: true]. *)
Lemma poll_verdict r hw hr next w l x :
  installed w l x -> lock x = false -> Method hr = MethodGet ->
  exists w' x',
    ServeHTTP r hw hr next w = Ok (next hw hr) w'
    /\ installed w' l x'
    /\ match poll_target x hw (next hw hr) hr with
       | Some reqID =>
           requestCache x' = delete reqID (requestCache x)
           /\ servingCount x' = uint32 (servingCount x - 1)
       | None => x' = x
       end.
Proof.
  intros I0 L Hm. rewrite (ServeHTTP_get_free r hw hr next w l x I0 L Hm).
  destruct (poll_target x hw (next hw hr) hr) as [reqID|].
  - eexists _, _. split; [reflexivity |]. split.
    + apply installed_put with x. exact I0.
    + now split.
  - eexists _, _. split; [reflexivity |]. split; [exact I0 | reflexivity].
Qed.

(** ** The received count *)

(** X2.  With a [negroni.ResponseWriter] a mutating request leaves
    [reqRecvCount] as it found it, whatever branch it takes. *)
Lemma recv_count_restored r hw hr next w l x :
  installed w l x -> lock x = false -> mutating hr = true ->
  negroni hw = true -> is_uint32 (reqRecvCount x) ->
  exists hw' w' x',
    ServeHTTP r hw hr next w = Ok hw' w'
    /\ installed w' l x' /\ reqRecvCount x' = reqRecvCount x.
Proof.
  intros I0 L Hm Hn Hu.
  assert (Hback : uint32 (uint32 (reqRecvCount x + 1) - 1) = reqRecvCount x).
  { unfold uint32. rewrite Zminus_mod_idemp_l.
    replace (reqRecvCount x + 1 - 1) with (reqRecvCount x) by lia.
    now apply Z.mod_small. }
  rewrite (ServeHTTP_mutating r hw hr next w l x I0 L Hm). cbv zeta.
  rewrite Hn.
  destruct ((maxcount x <=? servingCount x) || _).
  - eexists _, _, _. split; [reflexivity |]. split.
    + apply installed_put with x. exact I0.
    + exact Hback.
  - eexists _, _, _. split; [reflexivity |]. split.
    + apply (installed_put (serve hr w) l x). exact I0.
    + destruct ((status (next hw hr) =? StatusAccepted) && _); exact Hback.
Qed.

(** C3.  A [POST] whose response writer is not a
    [negroni.ResponseWriter] is let in, the handler runs, and
    [ServeHTTP] returns at the failed type assertion, before
    [decRecvCount]: [reqRecvCount] was 0 and stays 1. *)
Theorem recv_count_leaks_at_the_early_return :
  exists p w0 hw' w1,
    NewHTTPThrottler 2 init = Ok p w0
    /\ (reqRecvCount <$> global w0) = Some 0
    /\ ServeHTTP p hw_plain post_abc accept w0 = Ok hw' w1
    /\ served w1 = [post_abc]
    /\ (reqRecvCount <$> global w1) = Some 1.
Proof.
  eexists _, _, _, _. split; [reflexivity |].
  split; [reflexivity |]. split; [vm_compute; reflexivity |].
  split; vm_compute; reflexivity.
Qed.

(** ** Registry size *)

(** C4, as amended.  Started from nothing, after any sequence of
    operations in which every mutating request carries an identifier
    that is not in the registry at that moment, the number of entries of
    the registry equals [servingCount]. *)
Theorem registry_size_is_servingCount ops w l x :
  run typed_fresh ops init = Some w ->
  installed w l x ->
  Z.of_nat (size (requestCache x)) = servingCount x.
Proof.
  intros Hrun [T E].
  assert (HI : Inv w) by (apply (run_Inv ops init w); [exact I | exact Hrun]).
  unfold Inv in HI. rewrite T in HI. destruct HI as (x' & E' & _ & _ & Hs & _).
  rewrite E in E'. injection E' as <-. now rewrite Hs.
Qed.

Lemma registry_size_is_servingCount_witness :
  exists w l x,
    run typed_fresh busy_day init = Some w
    /\ installed w l x
    /\ Z.of_nat (size (requestCache x)) = servingCount x.
Proof.
  eexists _, _, _.
  split; [vm_compute; reflexivity |].
  split; [split; vm_compute; reflexivity |].
  eapply (registry_size_is_servingCount busy_day) with (l := 0%nat);
    [vm_compute; reflexivity | split; vm_compute; reflexivity].
Defined.

(** C4, as stated, fails when an identifier comes twice: the second
    [incRequest] overwrites the entry and increments [servingCount]
    again. *)
Lemma same_id_twice_breaks_registry_size :
  exists w x,
    run typed [ OpNew 3;
                OpServe None hw0 post_abc accept;
                OpServe None hw0 post_abc accept ] init = Some w
    /\ global w = Some x
    /\ size (requestCache x) = 1%nat
    /\ servingCount x = 2.
Proof.
  eexists _, _. split; [vm_compute; reflexivity |].
  split; [reflexivity |]. split; vm_compute; reflexivity.
Qed.

(** ** The sweeper tick *)

Lemma Time_Sub_later (t v : Time) (ct : Duration) :
  ct < maxDuration -> v + ct < t -> ct < Time_Sub t v.
Proof.
  unfold Time_Sub, maxDuration, minDuration. intros Hct Hlt. cbv zeta.
  destruct (t - v <? - 2 ^ 63) eqn:H1.
  - apply Z.ltb_lt in H1. lia.
  - destruct (2 ^ 63 - 1 <? t - v) eqn:H2; [lia |].
    lia.
Qed.

(** C5.  One tick of the sweeper, at a moment the lock is free: every
    record whose age [time.Now().Sub(value)] exceeds [ct] is gone, every
    other record is as it was, no record appears, and [servingCount] was
    decremented once for each removed record, [n] times for the [n]
    stale records; the other counters keep their values.  Hence a
    record that no poll removes is purged by any tick later than [ct]
    after it was recorded. *)
Theorem sweeper_tick_purges_stale_records ct w l x :
  installed w l x -> lock x = false ->
  exists x',
    Cleanup_tick ct w = Ok tt (put l x' w)
    /\ installed (put l x' w) l x'
    /\ (forall k v, requestCache x !! k = Some v ->
                    ct < Time_Sub (now w) v -> requestCache x' !! k = None)
    /\ (forall k v, requestCache x !! k = Some v ->
                    Time_Sub (now w) v <= ct -> requestCache x' !! k = Some v)
    /\ (forall k, requestCache x !! k = None -> requestCache x' !! k = None)
    /\ (let n := size (filter (expired (now w) ct) (requestCache x)) in
        (size (requestCache x') + n = size (requestCache x))%nat
        /\ servingCount x' = Nat.iter n dec32 (servingCount x)
        /\ (is_uint32 (servingCount x) ->
            servingCount x' = uint32 (servingCount x - Z.of_nat n)))
    /\ maxcount x' = maxcount x /\ reqRecvCount x' = reqRecvCount x
    /\ (forall (k : string) (v t : Time), requestCache x !! k = Some v ->
          ct < maxDuration -> v + ct < t ->
          exists x'',
            Cleanup_tick ct (set_now t w) = Ok tt (put l x'' (set_now t w))
            /\ requestCache x'' !! k = None).
Proof.
  intros I0 L.
  exists (map_fold (sweep_entry (now w) ct) x (requestCache x)).
  destruct (sweep_fold_spec (now w) ct x (requestCache x))
    as (Hc & Hsc & Hmax & Hrecv & _ & _).
  split; [now apply Cleanup_tick_eq |].
  split; [now apply installed_put with x |].
  split; [| split; [| split; [| split; [| split; [| split]]]]].
  - intros k v Hk Hx. rewrite Hc, Hk.
    apply Z.ltb_lt in Hx. now rewrite Hx.
  - intros k v Hk Hx. rewrite Hc, Hk.
    apply Z.ltb_ge in Hx. now rewrite Hx.
  - intros k Hk. now rewrite Hc, Hk.
  - cbv zeta. split; [| split].
    + rewrite sweep_registry. apply size_filter_split.
    + exact Hsc.
    + intros Hu. rewrite Hsc. now apply iter_dec32_wrap.
  - exact Hmax.
  - exact Hrecv.
  - intros k v t Hk Hct Hlt.
    exists (map_fold (sweep_entry t ct) x (requestCache x)).
    split.
    + now apply (Cleanup_tick_eq ct (set_now t w) l x).
    + destruct (sweep_fold_spec t ct x (requestCache x)) as (Hc' & _).
      rewrite Hc', Hk.
      pose proof (Time_Sub_later t v ct Hct Hlt) as Hx.
      apply Z.ltb_lt in Hx. now rewrite Hx.
Qed.

Lemma sweeper_tick_purges_stale_records_witness :
  installed stale_world 0 stale_limiter /\ lock stale_limiter = false
  /\ exists x',
      Cleanup_tick Second stale_world = Ok tt (put 0 x' stale_world)
      /\ requestCache x' !! "abc"%string = None
      /\ requestCache x' !! "xyz"%string = Some 1500000000
      /\ servingCount x' = 1.
Proof.
  split; [split; reflexivity |]. split; [reflexivity |].
  destruct (sweeper_tick_purges_stale_records Second stale_world 0 stale_limiter
              (conj eq_refl eq_refl) eq_refl)
    as (x' & Htick & _ & Hgone & Hkept & _ & (_ & _ & Hsc) & _).
  exists x'.
  split; [| split; [| split]].
  - exact Htick.
  - apply (Hgone "abc"%string 0); [reflexivity | vm_compute; reflexivity].
  - apply (Hkept "xyz"%string 1500000000); [reflexivity | vm_compute; discriminate].
  - rewrite Hsc by (vm_compute; split; [discriminate | reflexivity]).
    vm_compute. reflexivity.
Defined.

(** ** Polls for identifiers that are not in the registry *)

Lemma poll_target_absent x hw hw' hr reqID :
  polled hr = Some reqID -> requestCache x !! reqID = None ->
  poll_target x hw hw' hr = None.
Proof.
  unfold polled, poll_target. intros Hp Ha.
  destruct (negroni hw); [| reflexivity]. cbv zeta.
  destruct (3 <=? length _)%nat; [| reflexivity].
  destruct (isSuccess _ || _); [| reflexivity].
  now rewrite Hp, Ha.
Qed.

(** C8.  A poll for an identifier that is not in the registry calls the
    handler and leaves the limiter as it is, whatever the handler
    answers: [servingCount] and the registry are unchanged. *)
Theorem poll_for_absent_id_changes_nothing r hw hr next w l x reqID :
  installed w l x -> Method hr = MethodGet ->
  polled hr = Some reqID -> requestCache x !! reqID = None ->
  exists w',
    ServeHTTP r hw hr next w = Ok (next hw hr) w'
    /\ installed w' l x
    /\ heap w' = heap w
    /\ (servingCount <$> global w') = Some (servingCount x)
    /\ (requestCache <$> global w') = Some (requestCache x).
Proof.
  intros I0 Hm Hp Ha.
  rewrite (ServeHTTP_get r hw hr next w l x I0 Hm).
  rewrite (poll_target_absent x hw (next hw hr) hr reqID Hp Ha).
  exists (serve hr w).
  assert (I1 : installed (serve hr w) l x) by exact I0.
  split; [reflexivity |]. split; [exact I1 |]. split; [reflexivity |].
  now rewrite (installed_global _ _ _ I1).
Qed.

Lemma poll_for_absent_id_changes_nothing_witness :
  run typed_fresh [ OpNew 2;
                    OpServe None hw0 post_abc accept;
                    OpServe None hw0 post_xyz accept;
                    OpServe None hw0 poll_abc finished ] init = Some polled_world
  /\ installed polled_world 0 polled_limiter
  /\ Method poll_abc = MethodGet
  /\ polled poll_abc = Some "abc"%string
  /\ requestCache polled_limiter !! "abc"%string = None
  /\ exists w',
      ServeHTTP None hw0 poll_abc finished polled_world
      = Ok (finished hw0 poll_abc) w'
      /\ installed w' 0 polled_limiter.
Proof.
  split; [vm_compute; reflexivity |].
  split; [split; reflexivity |].
  split; [reflexivity |].
  split; [reflexivity |].
  split; [reflexivity |].
  destruct (poll_for_absent_id_changes_nothing None hw0 poll_abc finished
              polled_world 0%nat polled_limiter "abc"%string
              (conj eq_refl eq_refl) eq_refl eq_refl eq_refl)
    as (w' & Hs & Hi & _).
  exists w'. split; [exact Hs | exact Hi].
Defined.

(** ** Stop *)

(** C9.  With a limiter in place, [Stop] does not panic when no
    [Cleanup] goroutine waits on [tr.stop]: when the sweeper was never
    started [tr.stop] is the nil channel, when it was stopped nobody
    receives from [tr.stop] any more, and in both cases the send blocks
    the caller, for ever.  In particular [Stop] blocks right after
    [NewHTTPThrottler], and it blocks after a [Stop] that was
    delivered. *)
Theorem Stop_without_sweeper_blocks :
  (forall r w l x,
     installed w l x ->
     stop x = None
     \/ (exists c, stop x = Some c /\ receiving c (sweepers w) = false) ->
     Stop r w = Blocked w /\ forall msg, Stop r w <> Panic msg)
  /\ (forall count w p w1 r,
        NewHTTPThrottler count w = Ok p w1 -> Stop r w1 = Blocked w1)
  /\ (forall r w l x u w1 r',
        installed w l x -> Stop r w = Ok u w1 -> Stop r' w1 = Blocked w1).
Proof.
  assert (H1 : forall r w l x,
     installed w l x ->
     stop x = None
     \/ (exists c, stop x = Some c /\ receiving c (sweepers w) = false) ->
     Stop r w = Blocked w).
  { intros r w l x I0 Hs. rewrite (Stop_eq r w l x I0).
    destruct Hs as [-> | (c & -> & ->)]; reflexivity. }
  split; [| split].
  - intros r w l x I0 Hs. pose proof (H1 r w l x I0 Hs) as E.
    split; [exact E |]. intros msg. rewrite E. discriminate.
  - intros count w p w1 r Hnew. rewrite NewHTTPThrottler_eq in Hnew.
    injection Hnew as <- <-.
    apply (H1 r _ (length (heap w)) (newLimiter count)).
    + split; [reflexivity |]. cbn [heap set_heap set_tr].
      apply list_lookup_middle. reflexivity.
    + now left.
  - intros r w l x u w1 r' I0 Hstop. rewrite (Stop_eq r w l x I0) in Hstop.
    destruct (stop x) as [c|] eqn:Hc; [| discriminate].
    destruct (receiving c (sweepers w)); [| discriminate].
    inversion Hstop; subst; clear Hstop.
    apply (H1 r' _ l x); [exact I0 |].
    right. exists c. split; [exact Hc |]. apply receiving_filter.
Qed.

Lemma Stop_without_sweeper_blocks_witness :
  Stop None never_started = Blocked never_started
  /\ Stop None sweeping = Ok tt stopped
  /\ Stop None stopped = Blocked stopped.
Proof.
  destruct Stop_without_sweeper_blocks as (_ & Hnever & Hstopped).
  split; [| split].
  - apply (Hnever 4 init (Some 1%nat)). vm_compute. reflexivity.
  - vm_compute. reflexivity.
  - eapply (Hstopped None sweeping 0%nat _ tt stopped None).
    + split; vm_compute; reflexivity.
    + vm_compute. reflexivity.
Defined.

(** ** The receiver and the package variable *)

Lemma only_at_untouched {A} (m : M World A) w a w' l y :
  only_at (tr w) m -> m w = Ok a w' ->
  tr w <> Some l -> heap w !! l = Some y -> heap w' !! l = Some y.
Proof.
  intros H E Hne Hl. destruct (only_at_frame m w a w' H E) as [_ Hf].
  now rewrite Hf.
Qed.

(** C10.  [ServeHTTP], [Cleanup] and [Stop] do not use their receiver:
    they give the same result for any two receivers.  They leave [tr]
    alone, change no limiter but the one [tr] points to, and do the
    same whatever the other limiters hold.  [NewHTTPThrottler] makes two
    new limiters, stores the first in [tr] and returns the second; so
    after it [tr] points to a limiter with counters 0 and an empty
    registry, whatever was there before, and the limiter it returned is
    still as it was made after any request is served. *)
Theorem only_the_package_limiter_is_used :
  (forall r r' hw hr next w,
     ServeHTTP r hw hr next w = ServeHTTP r' hw hr next w)
  /\ (forall r r' ct w, Cleanup_start r ct w = Cleanup_start r' ct w)
  /\ (forall r r' w, Stop r w = Stop r' w)
  /\ (forall r hw hr next, touches_only_tr (ServeHTTP r hw hr next))
  /\ (forall r ct, touches_only_tr (Cleanup_start r ct))
  /\ (forall ct, touches_only_tr (Cleanup_tick ct))
  /\ (forall r, touches_only_tr (Stop r))
  /\ (forall count w,
        exists g l w',
          NewHTTPThrottler count w = Ok (Some l) w'
          /\ tr w' = Some g /\ g <> l
          /\ heap w !! g = None /\ heap w !! l = None
          /\ heap w' !! g = Some (newLimiter count)
          /\ heap w' !! l = Some (newLimiter count)
          /\ global w' = Some (newLimiter count)
          /\ forall k y, heap w !! k = Some y -> heap w' !! k = Some y)
  /\ (forall count w p w1 r hw hr next a w2,
        NewHTTPThrottler count w = Ok p w1 ->
        ServeHTTP r hw hr next w1 = Ok a w2 ->
        load p w2 = Ok (newLimiter count) w2).
Proof.
  split; [reflexivity |]. split; [reflexivity |]. split; [reflexivity |].
  split; [intros r hw hr next w; apply only_at_ServeHTTP |].
  split; [intros r ct w; apply only_at_Cleanup_start |].
  split; [intros ct w; apply only_at_Cleanup_tick |].
  split; [intros r w; apply only_at_Stop |].
  assert (Hnew : forall count w,
    let g := length (heap w) in
    let w' := set_heap (heap w ++ [newLimiter count; newLimiter count])
                (set_tr (Some g) w) in
    heap w' !! g = Some (newLimiter count)
    /\ heap w' !! S g = Some (newLimiter count)).
  { intros count w. cbv zeta. cbn [heap set_heap set_tr]. split.
    - apply list_lookup_middle. reflexivity.
    - change (heap w ++ [newLimiter count; newLimiter count])
        with (heap w ++ [newLimiter count] ++ [newLimiter count]).
      rewrite app_assoc. apply list_lookup_middle.
      rewrite length_app. cbn. lia. }
  split.
  - intros count w. destruct (Hnew count w) as [Hg Hl].
    eexists _, _, _. split; [apply NewHTTPThrottler_eq |].
    split; [reflexivity |]. split; [lia |].
    split; [apply lookup_ge_None; lia |].
    split; [apply lookup_ge_None; lia |].
    split; [exact Hg |]. split; [exact Hl |].
    split; [unfold global; cbn [tr set_heap set_tr]; exact Hg |].
    intros k y Hk. cbn [heap set_heap set_tr].
    now apply lookup_app_l_Some.
  - intros count w p w1 r hw hr next a w2 Hn Hs.
    rewrite NewHTTPThrottler_eq in Hn. injection Hn as <- <-.
    destruct (Hnew count w) as [_ Hl].
    apply load_at.
    apply (only_at_untouched _ _ _ _ _ _ (only_at_ServeHTTP _ r hw hr next) Hs).
    + cbn [tr set_heap set_tr]. intros [= E]. lia.
    + exact Hl.
Qed.

Lemma only_the_package_limiter_is_used_witness :
  NewHTTPThrottler 2 init = Ok (Some 1%nat) one_limiter
  /\ ServeHTTP (Some 1%nat) hw0 post_abc accept one_limiter
     = Ok (accept hw0 post_abc) one_record
  /\ load (Some 1%nat) one_record = Ok (newLimiter 2) one_record
  /\ (servingCount <$> global one_record) = Some 1
  /\ NewHTTPThrottler 7 one_record = Ok (Some 3%nat) second_limiter
  /\ global second_limiter = Some (newLimiter 7)
  /\ ServeHTTP (Some 1%nat) hw0 post_xyz accept second_limiter
     = Ok (accept hw0 post_xyz) second_record
  /\ load (Some 3%nat) second_record = Ok (newLimiter 7) second_record.
Proof.
  destruct only_the_package_limiter_is_used
    as (_ & _ & _ & _ & _ & _ & _ & _ & Hret).
  assert (H1 : NewHTTPThrottler 2 init = Ok (Some 1%nat) one_limiter)
    by (vm_compute; reflexivity).
  assert (H2 : ServeHTTP (Some 1%nat) hw0 post_abc accept one_limiter
               = Ok (accept hw0 post_abc) one_record)
    by (vm_compute; reflexivity).
  assert (H3 : NewHTTPThrottler 7 one_record = Ok (Some 3%nat) second_limiter)
    by (vm_compute; reflexivity).
  assert (H4 : ServeHTTP (Some 1%nat) hw0 post_xyz accept second_limiter
               = Ok (accept hw0 post_xyz) second_record)
    by (vm_compute; reflexivity).
  split; [exact H1 |]. split; [exact H2 |].
  split; [exact (Hret _ _ _ _ _ _ _ _ _ _ H1 H2) |].
  split; [vm_compute; reflexivity |].
  split; [exact H3 |].
  split; [vm_compute; reflexivity |].
  split; [exact H4 |].
  exact (Hret _ _ _ _ _ _ _ _ _ _ H3 H4).
Defined.

(** ** Further properties of [ServeHTTP] *)

Lemma mutating_request_verdict_witness :
  exists hw' w',
    ServeHTTP None hw0 post_abc accept stale_world = Ok hw' w'
    /\ hw' = accept hw0 post_abc
    /\ served w' = served stale_world ++ [post_abc].
Proof.
  destruct (mutating_request_verdict None hw0 post_abc accept stale_world
              0%nat stale_limiter (conj eq_refl eq_refl) eq_refl eq_refl)
    as (hw' & w' & Hs & Hv).
  exists hw', w'. split; [exact Hs | exact Hv].
Defined.

Lemma recv_count_restored_witness :
  exists hw' w' x',
    ServeHTTP None hw0 post_abc accept stale_world = Ok hw' w'
    /\ installed w' 0 x' /\ reqRecvCount x' = 0.
Proof.
  apply (recv_count_restored None hw0 post_abc accept stale_world 0%nat
           stale_limiter (conj eq_refl eq_refl) eq_refl eq_refl eq_refl).
  vm_compute. split; [discriminate | reflexivity].
Defined.

Lemma isSuccess_range st : isSuccess st = true <-> 200 <= st < 205.
Proof.
  unfold isSuccess, StatusOK, StatusResetContent.
  destruct ((200 <=? st) && (st <? 205)) eqn:H; cbv iota.
  - apply andb_true_iff in H as [H1 H2].
    apply Z.leb_le in H1. apply Z.ltb_lt in H2.
    split; [intros _; lia | reflexivity].
  - split; [discriminate |]. intros [A B].
    apply andb_false_iff in H as [H | H];
      [apply Z.leb_gt in H | apply Z.ltb_ge in H]; lia.
Qed.

Lemma done_status st :
  isSuccess st || (st =? StatusInternalServerError) = true
  <-> 200 <= st < 205 \/ st = 500.
Proof.
  rewrite orb_true_iff, isSuccess_range. unfold StatusInternalServerError.
  rewrite Z.eqb_eq. reflexivity.
Qed.

(** The conditions under which a poll removes the record [reqID]. *)
Lemma poll_target_Some x hw hw' hr reqID :
  poll_target x hw hw' hr = Some reqID <->
  negroni hw = true /\ polled hr = Some reqID
  /\ (200 <= status hw' < 205 \/ status hw' = 500)
  /\ is_Some (requestCache x !! reqID)
  /\ Header_Get (ReqHeader hr) "X-Pending" <> "true"%string.
Proof.
  unfold poll_target, polled. cbv zeta.
  set (urlPart := strings_Split (strings_TrimRight (URL_Path hr) "/") "/").
  rewrite <- done_status.
  destruct (negroni hw).
  2:{ split; [discriminate | intros (H & _); discriminate]. }
  destruct (3 <=? length urlPart)%nat eqn:Hlen.
  2:{ split; [discriminate |]. intros (_ & Hp & _).
      apply lookup_lt_Some in Hp. apply Nat.leb_gt in Hlen. lia. }
  destruct (isSuccess (status hw') || _).
  2:{ split; [discriminate | intros (_ & _ & H & _); discriminate]. }
  destruct (urlPart !! 2%nat) as [k|].
  2:{ split; [discriminate | intros (_ & H & _); discriminate]. }
  destruct (requestCache x !! k) as [t|] eqn:Hk.
  2:{ split; [discriminate |]. intros (_ & [= <-] & _ & [v Hv] & _).
      rewrite Hk in Hv. discriminate. }
  destruct (String.eqb (Header_Get (ReqHeader hr) "X-Pending") "true") eqn:Hx;
    cbn [negb].
  - apply String.eqb_eq in Hx.
    split; [discriminate | intros (_ & _ & _ & _ & H); contradiction].
  - apply String.eqb_neq in Hx. split.
    + intros [= <-]. rewrite Hk. repeat split; eauto.
    + intros (_ & [= <-] & _). reflexivity.
Qed.

(** X3.  A [GET] with a limiter in place calls the handler, returns its
    answer, and removes at most one record: the record named by the
    third piece of the trimmed path is deleted and [servingCount]
    decremented exactly when the writer is a [negroni.ResponseWriter],
    the status is in [200, 205) or 500, the record is there and the
    request carries no [X-Pending: true]; in every other case the
    limiter is left as it is.  A [GET] never adds a record. *)
Theorem status_poll_removes_at_most_its_record r hw hr next w l x :
  installed w l x -> lock x = false -> Method hr = MethodGet ->
  exists w' x',
    ServeHTTP r hw hr next w = Ok (next hw hr) w'
    /\ installed w' l x'
    /\ served w' = served w ++ [hr]
    /\ ((exists reqID,
           (negroni hw = true /\ polled hr = Some reqID
            /\ (200 <= status (next hw hr) < 205 \/ status (next hw hr) = 500)
            /\ is_Some (requestCache x !! reqID)
            /\ Header_Get (ReqHeader hr) "X-Pending" <> "true"%string)
           /\ requestCache x' = delete reqID (requestCache x)
           /\ servingCount x' = uint32 (servingCount x - 1)
           /\ reqRecvCount x' = reqRecvCount x)
        \/ (x' = x
            /\ forall reqID,
                 ~ (negroni hw = true /\ polled hr = Some reqID
                    /\ (200 <= status (next hw hr) < 205
                        \/ status (next hw hr) = 500)
                    /\ is_Some (requestCache x !! reqID)
                    /\ Header_Get (ReqHeader hr) "X-Pending" <> "true"%string))).
Proof.
  intros I0 L Hm. rewrite (ServeHTTP_get_free r hw hr next w l x I0 L Hm).
  destruct (poll_target x hw (next hw hr) hr) as [reqID|] eqn:Hp.
  - eexists _, (forget reqID x). split; [reflexivity |].
    split; [apply (installed_put (serve hr w) l x); exact I0 |].
    split; [reflexivity |]. left. exists reqID.
    apply poll_target_Some in Hp. split; [exact Hp |]. repeat split.
  - exists (serve hr w), x. split; [reflexivity |].
    split; [exact I0 |]. split; [reflexivity |]. right.
    split; [reflexivity |]. intros reqID Hc.
    apply poll_target_Some in Hc. rewrite Hp in Hc. discriminate.
Qed.

Lemma status_poll_removes_at_most_its_record_witness :
  exists w' x',
    ServeHTTP None hw0 poll_abc finished stale_world
    = Ok (finished hw0 poll_abc) w'
    /\ installed w' 0 x'
    /\ served w' = served stale_world ++ [poll_abc].
Proof.
  destruct (status_poll_removes_at_most_its_record None hw0 poll_abc finished
              stale_world 0%nat stale_limiter (conj eq_refl eq_refl)
              eq_refl eq_refl)
    as (w' & x' & Hs & Hi & Hserved & _).
  exists w', x'. split; [exact Hs |]. split; [exact Hi | exact Hserved].
Defined.

(** X4.  With a limiter in place and its lock free, [ServeHTTP] returns
    for every request, whatever its method: it neither panics nor
    blocks.  The handler is called exactly once and its answer
    returned, except for a mutating request over the limit, for which
    the handler is not called and the answer is 429. *)
Theorem ServeHTTP_returns_and_calls_the_handler_once r hw hr next w l x :
  installed w l x -> lock x = false ->
  exists hw' w',
    ServeHTTP r hw hr next w = Ok hw' w'
    /\ tr w' = tr w
    /\ if mutating hr
          && ((maxcount x <=? servingCount x)
              || (maxcount x <=? uint32 (reqRecvCount x + 1)))
       then served w' = served w /\ status hw' = StatusTooManyRequests
       else served w' = served w ++ [hr] /\ hw' = next hw hr.
Proof.
  intros I0 L. destruct (mutating hr) eqn:Hmut; cbn [andb].
  - rewrite (ServeHTTP_mutating r hw hr next w l x I0 L Hmut). cbv zeta.
    cbn [reqRecvCount recvInc set_reqRecvCount].
    destruct ((maxcount x <=? servingCount x) || _).
    + eexists _, _. split; [reflexivity |]. repeat split.
    + destruct (negroni hw); (eexists _, _; split; [reflexivity |]);
        repeat split.
  - destruct (String.eqb (Method hr) MethodGet) eqn:Hget.
    + apply String.eqb_eq in Hget.
      rewrite (ServeHTTP_get_free r hw hr next w l x I0 L Hget).
      eexists _, _. split; [reflexivity |].
      destruct (poll_target _ _ _ _); repeat split.
    + rewrite (ServeHTTP_other r hw hr next w Hmut Hget).
      eexists _, _. split; [reflexivity |]. repeat split.
Qed.

Lemma ServeHTTP_returns_and_calls_the_handler_once_witness :
  exists hw' w',
    ServeHTTP None hw0 poll_abc finished stale_world = Ok hw' w'
    /\ served w' = served stale_world ++ [poll_abc]
    /\ hw' = finished hw0 poll_abc.
Proof.
  destruct (ServeHTTP_returns_and_calls_the_handler_once None hw0 poll_abc
              finished stale_world 0%nat stale_limiter (conj eq_refl eq_refl)
              eq_refl)
    as (hw' & w' & Hs & _ & Hv).
  exists hw', w'. split; [exact Hs | exact Hv].
Defined.

(** X5.  Before any [NewHTTPThrottler], when [tr] is nil: a mutating
    request panics with a nil dereference, at [tr.incRecvCount()]; a
    [GET] whose path has fewer than three pieces is passed through; a
    [GET] that reaches the registry lookup panics after the handler has
    run. *)
Theorem ServeHTTP_without_limiter r hw hr next w :
  tr w = None ->
  (mutating hr = true -> ServeHTTP r hw hr next w = Panic nilDeref)
  /\ (Method hr = MethodGet -> polled hr = None ->
      ServeHTTP r hw hr next w = Ok (next hw hr) (serve hr w))
  /\ (forall reqID,
        Method hr = MethodGet -> negroni hw = true ->
        polled hr = Some reqID ->
        200 <= status (next hw hr) < 205 \/ status (next hw hr) = 500 ->
        ServeHTTP r hw hr next w = Panic nilDeref).
Proof.
  intros T. split; [| split].
  - intros Hmut. unfold ServeHTTP. fold (mutating hr). rewrite Hmut.
    unfold bind at 1. unfold get_tr. rewrite T.
    reflexivity.
  - intros Hm Hp. unfold ServeHTTP. rewrite Hm.
    cbn [String.eqb MethodGet MethodPost MethodDelete Ascii.eqb Bool.eqb orb andb].
    erewrite bind_Ok by apply call_eq.
    destruct (negroni hw); cbn [negb]; [| reflexivity]. cbv zeta.
    destruct (3 <=? length _)%nat; [| reflexivity].
    destruct (isSuccess _ || _); [| reflexivity].
    unfold polled in Hp. now rewrite Hp.
  - intros reqID Hm Hn Hp Hst. unfold ServeHTTP. rewrite Hm.
    cbn [String.eqb MethodGet MethodPost MethodDelete Ascii.eqb Bool.eqb orb andb].
    erewrite bind_Ok by apply call_eq.
    rewrite Hn. cbn [negb]. cbv zeta.
    unfold polled in Hp. pose proof (lookup_lt_Some _ _ _ Hp) as Hlen.
    apply done_status in Hst.
    destruct (3 <=? length _)%nat eqn:Hl; [| apply Nat.leb_gt in Hl; lia].
    rewrite Hst, Hp.
    unfold bind at 1. unfold get_tr. cbn [tr serve set_served]. rewrite T.
    reflexivity.
Qed.

Lemma ServeHTTP_without_limiter_witness :
  ServeHTTP None hw0 post_abc accept init = Panic nilDeref
  /\ ServeHTTP None hw0 poll_abc finished init = Panic nilDeref.
Proof.
  destruct (ServeHTTP_without_limiter None hw0 post_abc accept init eq_refl)
    as (Hpost & _).
  destruct (ServeHTTP_without_limiter None hw0 poll_abc finished init eq_refl)
    as (_ & _ & Hget).
  split.
  - apply Hpost. reflexivity.
  - apply (Hget "abc"%string); [reflexivity | reflexivity | reflexivity |].
    left. vm_compute. split; [discriminate | reflexivity].
Defined.

(** ** Recording, capacity and the registry as a map *)

(** X6.  A mutating request that is let in, with a
    [negroni.ResponseWriter]: when the handler answers 202 and the
    request carries a non-empty identifier, the registry maps that
    identifier to the current time and [servingCount] is incremented;
    for any other answer, or without an identifier, the registry and
    [servingCount] stay as they are. *)
Theorem accepted_request_is_recorded r hw hr next w l x :
  installed w l x -> lock x = false -> mutating hr = true ->
  negroni hw = true ->
  servingCount x < maxcount x -> uint32 (reqRecvCount x + 1) < maxcount x ->
  exists w' x',
    ServeHTTP r hw hr next w = Ok (next hw hr) w'
    /\ installed w' l x'
    /\ (status (next hw hr) = StatusAccepted ->
        GetRequestID (ctxRequestID hr) <> ""%string ->
        requestCache x'
        = <[GetRequestID (ctxRequestID hr) := now w]> (requestCache x)
        /\ servingCount x' = uint32 (servingCount x + 1))
    /\ (status (next hw hr) <> StatusAccepted
        \/ GetRequestID (ctxRequestID hr) = ""%string ->
        requestCache x' = requestCache x /\ servingCount x' = servingCount x).
Proof.
  intros I0 L Hmut Hn Hsc Hrc.
  rewrite (ServeHTTP_mutating r hw hr next w l x I0 L Hmut). cbv zeta.
  cbn [reqRecvCount recvInc set_reqRecvCount].
  apply Z.leb_gt in Hsc. apply Z.leb_gt in Hrc. rewrite Hsc, Hrc, Hn.
  cbn [orb]. eexists _, _. split; [reflexivity |].
  split; [apply (installed_put (serve hr w) l x); exact I0 |].
  destruct (status (next hw hr) =? StatusAccepted) eqn:Hst; cbn [andb].
  - apply Z.eqb_eq in Hst.
    destruct (String.eqb (GetRequestID (ctxRequestID hr)) "") eqn:Hid;
      cbn [negb].
    + apply String.eqb_eq in Hid. split; [intros _ Hne; contradiction |].
      intros _. split; reflexivity.
    + apply String.eqb_neq in Hid. split; [intros _ _; split; reflexivity |].
      intros [Hne | He]; contradiction.
  - apply Z.eqb_neq in Hst. split; [intros He; contradiction |].
    intros _. split; reflexivity.
Qed.

Lemma accepted_request_is_recorded_witness :
  exists w' x',
    ServeHTTP None hw0 post_abc accept polled_world
    = Ok (accept hw0 post_abc) w'
    /\ installed w' 0 x'
    /\ requestCache x' = <[ "abc"%string := 0 ]> (requestCache polled_limiter)
    /\ servingCount x' = 2.
Proof.
  destruct (accepted_request_is_recorded None hw0 post_abc accept polled_world
              0%nat polled_limiter (conj eq_refl eq_refl) eq_refl eq_refl
              eq_refl eq_refl eq_refl)
    as (w' & x' & Hs & Hi & Hrec & _).
  exists w', x'. split; [exact Hs |]. split; [exact Hi |].
  apply Hrec; [reflexivity | discriminate].
Defined.

(** X7.  Started from nothing, after any sequence of operations in
    which the identifiers of the mutating requests are new,
    [servingCount] is between 0 and [maxcount], and so is the number of
    records; the lock is free between operations. *)
Theorem serving_count_within_capacity ops w l x :
  run typed_fresh ops init = Some w ->
  installed w l x ->
  0 <= servingCount x <= maxcount x
  /\ Z.of_nat (size (requestCache x)) <= maxcount x
  /\ lock x = false.
Proof.
  intros Hrun [T E].
  assert (HI : Inv w) by (apply (run_Inv ops init w); [exact I | exact Hrun]).
  unfold Inv in HI. rewrite T in HI.
  destruct HI as (x' & E' & L & _ & Hs & Hle).
  rewrite E in E'. injection E' as <-.
  split; [lia |]. split; [lia | exact L].
Qed.

Lemma serving_count_within_capacity_witness :
  exists x,
    installed polled_world 0 x
    /\ 0 <= servingCount x <= maxcount x
    /\ Z.of_nat (size (requestCache x)) <= maxcount x.
Proof.
  exists polled_limiter.
  assert (Hi : installed polled_world 0 polled_limiter) by (split; reflexivity).
  split; [exact Hi |].
  destruct (serving_count_within_capacity
              [ OpNew 2;
                OpServe None hw0 post_abc accept;
                OpServe None hw0 post_xyz accept;
                OpServe None hw0 poll_abc finished ]
              polled_world 0%nat polled_limiter)
    as (Hsc & Hsz & _); [vm_compute; reflexivity | exact Hi |].
  split; [exact Hsc | exact Hsz].
Defined.

(** X8.  [incRequest] writes the current time under the identifier,
    whether or not the identifier was there, leaves the other records
    alone and increments [servingCount] in both cases. *)
Theorem incRequest_records_the_time w l x reqid :
  heap w !! l = Some x -> lock x = false ->
  exists x',
    incRequest (Some l) reqid w = Ok tt (put l x' w)
    /\ requestCache x' !! reqid = Some (now w)
    /\ (forall k, k <> reqid -> requestCache x' !! k = requestCache x !! k)
    /\ servingCount x' = uint32 (servingCount x + 1)
    /\ (is_Some (requestCache x !! reqid) ->
        size (requestCache x') = size (requestCache x)).
Proof.
  intros E L. exists (record reqid (now w) x).
  split; [now apply incRequest_eq |]. cbn.
  split; [apply lookup_insert_eq |].
  split; [intros k Hk; now apply lookup_insert_ne |].
  split; [reflexivity |].
  intros [t Ht]. apply map_size_insert_Some. eauto.
Qed.

Lemma incRequest_records_the_time_witness :
  exists x',
    incRequest (Some 0%nat) "xyz" polled_world = Ok tt (put 0 x' polled_world)
    /\ requestCache x' !! "xyz"%string = Some 0
    /\ servingCount x' = 2
    /\ size (requestCache x') = 1%nat.
Proof.
  destruct (incRequest_records_the_time polled_world 0%nat polled_limiter
              "xyz"%string eq_refl eq_refl)
    as (x' & Hs & Hl & _ & Hsc & Hsz).
  exists x'. split; [exact Hs |]. split; [exact Hl |].
  split; [exact Hsc |]. rewrite Hsz; [reflexivity |].
  vm_compute. eauto.
Defined.

(** X9.  [decRequest] does not look for the identifier: for one that
    is not in the registry the registry stays as it is and
    [servingCount] is decremented all the same, from 0 to 2^32 - 1. *)
Theorem decRequest_of_absent_id_still_decrements w l x reqid :
  heap w !! l = Some x -> lock x = false ->
  requestCache x !! reqid = None ->
  exists x',
    decRequest (Some l) reqid w = Ok tt (put l x' w)
    /\ requestCache x' = requestCache x
    /\ servingCount x' = uint32 (servingCount x - 1)
    /\ (servingCount x = 0 -> servingCount x' = 4294967295).
Proof.
  intros E L Ha. exists (forget reqid x).
  split; [now apply decRequest_eq |]. cbn.
  split; [now apply delete_id |]. split; [reflexivity |].
  intros ->. reflexivity.
Qed.

Lemma decRequest_of_absent_id_still_decrements_witness :
  exists x',
    decRequest (Some 1%nat) "abc" polled_world = Ok tt (put 1 x' polled_world)
    /\ requestCache x' = ∅
    /\ servingCount x' = 4294967295.
Proof.
  destruct (decRequest_of_absent_id_still_decrements polled_world 1%nat
              (newLimiter 2) "abc"%string eq_refl eq_refl eq_refl)
    as (x' & Hs & Hc & _ & Hz).
  exists x'. split; [exact Hs |]. split; [exact Hc |]. now apply Hz.
Defined.

(** X10.  Recording a new identifier and removing it again gives back
    the limiter as it was: [incRequest] followed by [decRequest] of an
    identifier that was not in the registry changes nothing, as long as
    [servingCount] is below its largest value. *)
Theorem incRequest_then_decRequest_restores w l x reqid :
  heap w !! l = Some x -> lock x = false ->
  requestCache x !! reqid = None ->
  0 <= servingCount x < 2 ^ 32 - 1 ->
  (incRequest (Some l) reqid ;;; decRequest (Some l) reqid) w = Ok tt w.
Proof.
  intros E L Ha Hsc.
  erewrite bind_Ok by (apply incRequest_eq; [exact E | exact L]).
  erewrite decRequest_eq by (first [eapply heap_put; exact E | exact L]).
  rewrite put_put. f_equal.
  replace (forget reqid (record reqid (now w) x)) with x;
    [now apply put_same |].
  unfold forget, record. cbn.
  rewrite delete_insert_id by exact Ha.
  rewrite (uint32_small (servingCount x + 1)) by (unfold is_uint32; lia).
  replace (servingCount x + 1 - 1) with (servingCount x) by lia.
  rewrite uint32_small by (unfold is_uint32; lia).
  now destruct x.
Qed.

Lemma incRequest_then_decRequest_restores_witness :
  (incRequest (Some 0%nat) "abc" ;;; decRequest (Some 0%nat) "abc") polled_world
  = Ok tt polled_world.
Proof.
  apply (incRequest_then_decRequest_restores polled_world 0%nat polled_limiter);
    [reflexivity | reflexivity | reflexivity | vm_compute].
  split; [discriminate | reflexivity].
Defined.

(** ** More on the sweeper *)

(** A pass over records none of which is stale changes nothing. *)
Lemma sweep_fold_fresh t ct a (m : gmap string Time) :
  (forall k v, m !! k = Some v -> Time_Sub t v <= ct) ->
  map_fold (sweep_entry t ct) a m = a.
Proof.
  apply (map_fold_weak_ind (fun r m =>
    (forall k v, m !! k = Some v -> Time_Sub t v <= ct) -> r = a)).
  - reflexivity.
  - clear m. intros i v m r Hi IH Hall.
    rewrite IH.
    + unfold sweep_entry.
      specialize (Hall i v (lookup_insert_eq _ _ _)).
      apply Z.ltb_ge in Hall. now rewrite Hall.
    + intros k v' Hk. apply (Hall k v').
      rewrite lookup_insert_ne; [exact Hk |]. intros ->. congruence.
Qed.

(** X11.  A second tick at the same moment changes nothing: after a
    tick no record of the registry is stale, so the sweeper removes
    each record once and decrements [servingCount] once for it. *)
Theorem second_tick_changes_nothing ct w l x :
  installed w l x -> lock x = false ->
  exists w1,
    Cleanup_tick ct w = Ok tt w1
    /\ Cleanup_tick ct w1 = Ok tt w1.
Proof.
  intros I0 L.
  set (x1 := map_fold (sweep_entry (now w) ct) x (requestCache x)).
  exists (put l x1 w). split; [now apply Cleanup_tick_eq |].
  assert (L1 : lock x1 = false).
  { destruct (sweep_fold_spec (now w) ct x (requestCache x))
      as (_ & _ & _ & _ & Hl & _). fold x1 in Hl. congruence. }
  rewrite (Cleanup_tick_eq ct (put l x1 w) l x1
             (installed_put w l x x1 I0) L1).
  rewrite put_put. do 2 f_equal.
  change (now (put l x1 w)) with (now w).
  apply sweep_fold_fresh. intros k v Hk.
  unfold x1 in Hk. rewrite sweep_registry in Hk.
  apply map_lookup_filter_Some in Hk as [_ Hne].
  unfold expired in Hne. cbn in Hne. lia.
Qed.

Lemma second_tick_changes_nothing_witness :
  exists w1,
    Cleanup_tick Second stale_world = Ok tt w1
    /\ Cleanup_tick Second w1 = Ok tt w1.
Proof.
  apply (second_tick_changes_nothing Second stale_world 0%nat stale_limiter);
    [split; reflexivity | reflexivity].
Defined.

(** X12.  [Cleanup] called twice leaves a sweeper nobody can stop: the
    second call overwrites [tr.stop] with its own channel, [Stop] is
    delivered to the second goroutine, and after it the first one is
    still waiting on its channel while any further [Stop] blocks. *)
Theorem second_Cleanup_orphans_the_first r1 r2 r3 r4 ct1 ct2 w l x :
  installed w l x -> 0 < ct1 -> 0 < ct2 ->
  exists c1 w1 c2 w2 w3,
    Cleanup_start r1 ct1 w = Ok c1 w1
    /\ Cleanup_start r2 ct2 w1 = Ok c2 w2
    /\ c1 <> c2
    /\ Stop r3 w2 = Ok tt w3
    /\ In (c1, ct1) (sweepers w3)
    /\ Stop r4 w3 = Blocked w3.
Proof.
  intros I0 H1 H2.
  pose proof (Cleanup_start_eq r1 ct1 w l x I0 H1) as E1.
  set (w1 := set_sweepers (sweepers w ++ [(nchan w, ct1)])
               (put l (set_stop (Some (nchan w)) x)
                  (set_nchan (S (nchan w)) w))) in *.
  assert (I1 : installed w1 l (set_stop (Some (nchan w)) x)).
  { apply (installed_put (set_nchan (S (nchan w)) w) l x). exact I0. }
  pose proof (Cleanup_start_eq r2 ct2 w1 l _ I1 H2) as E2.
  set (x2 := set_stop (Some (nchan w1)) (set_stop (Some (nchan w)) x)) in *.
  set (w2 := set_sweepers (sweepers w1 ++ [(nchan w1, ct2)])
               (put l x2 (set_nchan (S (nchan w1)) w1))) in *.
  assert (I2 : installed w2 l x2).
  { apply (installed_put (set_nchan (S (nchan w1)) w1) l
             (set_stop (Some (nchan w)) x)). exact I1. }
  assert (Hrecv : receiving (S (nchan w)) (sweepers w2) = true).
  { unfold receiving. apply existsb_exists. exists (S (nchan w), ct2).
    split; [| apply Nat.eqb_refl].
    cbn. apply in_or_app. right. now left. }
  set (w3 := set_sweepers
               (filter (fun s => fst s <> S (nchan w)) (sweepers w2)) w2).
  exists (nchan w), w1, (S (nchan w)), w2, w3.
  split; [exact E1 |]. split; [exact E2 |]. split; [lia |].
  assert (E3 : Stop r3 w2 = Ok tt w3).
  { rewrite (Stop_eq r3 w2 l x2 I2). cbn [stop x2 set_stop nchan w1
      set_sweepers put set_heap set_nchan]. now rewrite Hrecv. }
  split; [exact E3 |]. split.
  - cbn [sweepers w3 set_sweepers]. apply list_elem_of_In.
    apply list_elem_of_filter. split; [cbn; lia |].
    apply list_elem_of_In. cbn. apply in_or_app. left.
    apply in_or_app. right. now left.
  - rewrite (Stop_eq r4 w3 l x2 I2).
    cbn [stop x2 set_stop nchan w1 set_sweepers put set_heap set_nchan].
    cbn [sweepers w3 set_sweepers]. now rewrite receiving_filter.
Qed.

Lemma second_Cleanup_orphans_the_first_witness :
  exists c1 w1 c2 w2 w3,
    Cleanup_start None Second never_started = Ok c1 w1
    /\ Cleanup_start None Minute w1 = Ok c2 w2
    /\ c1 <> c2
    /\ Stop None w2 = Ok tt w3
    /\ In (c1, Second) (sweepers w3)
    /\ Stop None w3 = Blocked w3.
Proof.
  apply (second_Cleanup_orphans_the_first None None None None Second Minute
           never_started 0%nat (newLimiter 4));
    [split; reflexivity | reflexivity | reflexivity].
Defined.

(** ** The shape of the paths *)

Lemma append_cons c (s t : string) :
  (String c s ++ t)%string = String c (s ++ t)%string.
Proof. reflexivity. Qed.

Lemma append_nil_l (t : string) : ("" ++ t)%string = t.
Proof. reflexivity. Qed.

Ltac app_norm := repeat (rewrite append_cons || rewrite append_nil_l).

Lemma append_assoc' (s t u : string) :
  ((s ++ t) ++ u)%string = (s ++ (t ++ u))%string.
Proof.
  induction s as [|c s IH]; [reflexivity |].
  rewrite !append_cons, IH. reflexivity.
Qed.

Lemma Split_sep c t :
  strings_Split (String c t) c = ""%string :: strings_Split t c.
Proof. cbn [strings_Split]. now rewrite Ascii.eqb_refl. Qed.

Lemma Split_free c s : free_of c s = true -> strings_Split s c = [s].
Proof.
  induction s as [|d s IH]; cbn [strings_Split free_of]; [reflexivity |].
  intros H. apply andb_true_iff in H as [Hd Hs].
  apply negb_true_iff in Hd. rewrite Hd, (IH Hs). reflexivity.
Qed.

Lemma Split_app c s t :
  free_of c s = true ->
  strings_Split (s ++ String c t) c = s :: strings_Split t c.
Proof.
  induction s as [|d s IH]; cbn [free_of].
  - intros _. rewrite append_nil_l. apply Split_sep.
  - intros H. apply andb_true_iff in H as [Hd Hs].
    apply negb_true_iff in Hd. rewrite append_cons. cbn [strings_Split].
    rewrite Hd, (IH Hs). reflexivity.
Qed.

(** A string that ends in a character outside the cutset is not
    trimmed. *)
Lemma TrimRight_last p c cutset :
  in_cutset c cutset = false ->
  strings_TrimRight (p ++ String c "") cutset = (p ++ String c "")%string.
Proof.
  intros Hc. induction p as [|d p IH].
  - rewrite append_nil_l. cbn [strings_TrimRight]. now rewrite Hc.
  - rewrite append_cons. cbn [strings_TrimRight]. rewrite IH.
    destruct p; reflexivity.
Qed.

Lemma TrimRight_slash s :
  strings_TrimRight (s ++ "/") "/" = strings_TrimRight s "/".
Proof.
  induction s as [|d s IH]; [reflexivity |].
  rewrite append_cons. cbn [strings_TrimRight]. now rewrite IH.
Qed.

Lemma free_last c s :
  s <> ""%string -> free_of c s = true ->
  exists p d, s = (p ++ String d "")%string /\ Ascii.eqb d c = false.
Proof.
  induction s as [|e s IH]; [congruence |]. intros _ H. cbn [free_of] in H.
  apply andb_true_iff in H as [He Hs]. apply negb_true_iff in He.
  destruct s as [|e' s'].
  - exists ""%string, e. split; [reflexivity | exact He].
  - destruct (IH ltac:(discriminate) Hs) as (p & d & Hp & Hd).
    exists (String e p), d. split; [now rewrite Hp | exact Hd].
Qed.

Lemma TrimRight_free p s :
  s <> ""%string -> free_of "/" s = true ->
  strings_TrimRight (p ++ s) "/" = (p ++ s)%string.
Proof.
  intros Hne Hf. destruct (free_last "/" s Hne Hf) as (q & d & -> & Hd).
  rewrite <- append_assoc'. apply TrimRight_last.
  cbn [in_cutset]. rewrite Ascii.eqb_sym in Hd. rewrite Ascii.eqb_sym, Hd.
  reflexivity.
Qed.

(** The pieces of [/a/b] and of [/a/b/c]. *)
Lemma pieces_2 a b :
  free_of "/" a = true -> free_of "/" b = true -> b <> ""%string ->
  strings_Split (strings_TrimRight ("/" ++ a ++ "/" ++ b) "/") "/"
  = [""%string; a; b].
Proof.
  intros Ha Hb Hne.
  replace ("/" ++ a ++ "/" ++ b)%string
    with (("/" ++ a ++ "/") ++ b)%string
    by (rewrite !append_assoc'; reflexivity).
  rewrite TrimRight_free by assumption.
  rewrite !append_assoc'. app_norm.
  rewrite Split_sep, Split_app by exact Ha. now rewrite Split_free.
Qed.

Lemma pieces_3 a b c :
  free_of "/" a = true -> free_of "/" b = true -> free_of "/" c = true ->
  c <> ""%string ->
  strings_Split (strings_TrimRight ("/" ++ a ++ "/" ++ b ++ "/" ++ c) "/") "/"
  = [""%string; a; b; c].
Proof.
  intros Ha Hb Hc Hne.
  replace ("/" ++ a ++ "/" ++ b ++ "/" ++ c)%string
    with (("/" ++ a ++ "/" ++ b ++ "/") ++ c)%string
    by (rewrite !append_assoc'; reflexivity).
  rewrite TrimRight_free by assumption.
  rewrite !append_assoc'. app_norm.
  rewrite Split_sep, Split_app by exact Ha.
  rewrite Split_app by exact Hb. now rewrite Split_free.
Qed.

(** X13.  A completion poll of [/kind/id], for instance [/queue/id]:
    when the record [id] is in the registry, the writer is a
    [negroni.ResponseWriter], the status is in [200, 205) or 500 and the
    request has no [X-Pending: true], the record is removed and
    [servingCount] is decremented; the other records stay. *)
Theorem completion_poll_frees_the_slot r hw hr next w l x kind id t :
  installed w l x -> lock x = false ->
  Method hr = MethodGet ->
  URL_Path hr = ("/" ++ kind ++ "/" ++ id)%string ->
  free_of "/" kind = true -> free_of "/" id = true -> id <> ""%string ->
  negroni hw = true ->
  200 <= status (next hw hr) < 205 \/ status (next hw hr) = 500 ->
  Header_Get (ReqHeader hr) "X-Pending" <> "true"%string ->
  requestCache x !! id = Some t ->
  exists w' x',
    ServeHTTP r hw hr next w = Ok (next hw hr) w'
    /\ installed w' l x'
    /\ requestCache x' !! id = None
    /\ (forall k, k <> id -> requestCache x' !! k = requestCache x !! k)
    /\ servingCount x' = uint32 (servingCount x - 1).
Proof.
  intros I0 L Hm Hpath Hk Hid Hne Hn Hst Hx Ht.
  rewrite (ServeHTTP_get_free r hw hr next w l x I0 L Hm).
  assert (Hp : poll_target x hw (next hw hr) hr = Some id).
  { apply poll_target_Some. split; [exact Hn |].
    split; [| split; [exact Hst | split; [eauto | exact Hx]]].
    unfold polled. rewrite Hpath, pieces_2 by assumption. reflexivity. }
  rewrite Hp. eexists _, (forget id x). split; [reflexivity |].
  split; [apply (installed_put (serve hr w) l x); exact I0 |].
  cbn. split; [apply lookup_delete_eq |].
  split; [intros k Hk'; now apply lookup_delete_ne | reflexivity].
Qed.

Lemma completion_poll_frees_the_slot_witness :
  exists w' x',
    ServeHTTP None hw0 poll_abc finished stale_world
    = Ok (finished hw0 poll_abc) w'
    /\ installed w' 0 x'
    /\ requestCache x' !! "abc"%string = None
    /\ servingCount x' = 1.
Proof.
  destruct (completion_poll_frees_the_slot None hw0 poll_abc finished
              stale_world 0%nat stale_limiter "queue" "abc" 0
              (conj eq_refl eq_refl) eq_refl eq_refl eq_refl eq_refl eq_refl)
    as (w' & x' & Hs & Hi & Hgone & _ & Hsc).
  - discriminate.
  - reflexivity.
  - left. vm_compute. split; [discriminate | reflexivity].
  - vm_compute. discriminate.
  - reflexivity.
  - exists w', x'. split; [exact Hs |]. split; [exact Hi |].
    split; [exact Hgone | exact Hsc].
Defined.

(** X14.  A slash at the end of the path of a [GET] makes no
    difference to the limiter: when the handler answers both requests
    with the same status, both leave the same limiter behind. *)
Theorem trailing_slash_makes_no_difference r hw hr next w l x :
  installed w l x -> lock x = false -> Method hr = MethodGet ->
  status (next hw (with_path (URL_Path hr ++ "/") hr)) = status (next hw hr) ->
  exists w1 w2 x',
    ServeHTTP r hw hr next w = Ok (next hw hr) w1
    /\ ServeHTTP r hw (with_path (URL_Path hr ++ "/") hr) next w
       = Ok (next hw (with_path (URL_Path hr ++ "/") hr)) w2
    /\ installed w1 l x' /\ installed w2 l x'.
Proof.
  intros I0 L Hm Hst.
  set (hr' := with_path (URL_Path hr ++ "/") hr) in *.
  rewrite (ServeHTTP_get_free r hw hr next w l x I0 L Hm).
  rewrite (ServeHTTP_get_free r hw hr' next w l x I0 L Hm).
  assert (Hp : poll_target x hw (next hw hr') hr'
               = poll_target x hw (next hw hr) hr).
  { unfold poll_target. rewrite Hst. unfold hr'. cbn [URL_Path ReqHeader with_path].
    now rewrite TrimRight_slash. }
  rewrite Hp.
  destruct (poll_target x hw (next hw hr) hr) as [reqID|].
  - eexists _, _, (forget reqID x). split; [reflexivity |].
    split; [reflexivity |].
    split; [apply (installed_put (serve hr w) l x) |
            apply (installed_put (serve hr' w) l x)]; exact I0.
  - eexists _, _, x. split; [reflexivity |]. split; [reflexivity |].
    split; exact I0.
Qed.

Lemma trailing_slash_makes_no_difference_witness :
  exists w1 w2 x',
    ServeHTTP None hw0 poll_abc finished stale_world
    = Ok (finished hw0 poll_abc) w1
    /\ ServeHTTP None hw0 (with_path "/queue/abc/" poll_abc) finished stale_world
       = Ok (finished hw0 (with_path "/queue/abc/" poll_abc)) w2
    /\ installed w1 0 x' /\ installed w2 0 x'.
Proof.
  apply (trailing_slash_makes_no_difference None hw0 poll_abc finished
           stale_world 0%nat stale_limiter);
    [split; reflexivity | reflexivity | reflexivity | reflexivity].
Defined.

(** ** The request identifier *)

(** X15.  [RequestID.ServeHTTP] calls the next handler exactly once,
    with the same response writer and a request that has the method,
    the path and the headers of the one it was given; only the context
    may differ, and then it carries the new identifier. *)
Theorem RequestID_changes_only_the_context uuid hw hr next w :
  exists hr',
    RequestID_ServeHTTP uuid hw hr next w = next hw hr' w
    /\ Method hr' = Method hr /\ URL_Path hr' = URL_Path hr
    /\ ReqHeader hr' = ReqHeader hr
    /\ (hr' = hr \/ GetRequestID (ctxRequestID hr') = uuid).
Proof.
  unfold RequestID_ServeHTTP.
  destruct (String.eqb (Method hr) MethodPost || String.eqb (Method hr) MethodDelete).
  { eexists. split; [reflexivity |]. repeat split. now right. }
  destruct (String.eqb (Method hr) MethodGet).
  2:{ exists hr. repeat split. now left. }
  cbv zeta. destruct (4 <=? length _)%nat.
  2:{ exists hr. repeat split. now left. }
  destruct (_ !! 1%nat) as [kind|]; [| exists hr; repeat split; now left].
  destruct (_ !! 3%nat) as [action|]; [| exists hr; repeat split; now left].
  destruct (String.eqb kind "devices" && String.eqb action "resync").
  - eexists. split; [reflexivity |]. repeat split. now right.
  - exists hr. repeat split. now left.
Qed.

Ltac get_method :=
  change (String.eqb MethodGet MethodPost) with false;
  change (String.eqb MethodGet MethodDelete) with false;
  change (String.eqb MethodGet MethodGet) with true;
  cbn [orb]; cbv zeta.

(** X16.  Which requests get an identifier: every [POST] and [DELETE];
    a [GET] of [/devices/id/resync]; no [GET] whose trimmed path has
    fewer than four pieces, such as the status polls [/queue/id]; no
    request of another method. *)
Theorem RequestID_marks_mutating_and_resync uuid hw hr next w :
  (mutating hr = true ->
   RequestID_ServeHTTP uuid hw hr next w
   = next hw (WithContext hr (Some uuid)) w)
  /\ (forall id,
        Method hr = MethodGet ->
        URL_Path hr = ("/devices/" ++ id ++ "/resync")%string ->
        free_of "/" id = true ->
        RequestID_ServeHTTP uuid hw hr next w
        = next hw (WithContext hr (Some uuid)) w)
  /\ (forall kind id,
        Method hr = MethodGet ->
        URL_Path hr = ("/" ++ kind ++ "/" ++ id)%string ->
        free_of "/" kind = true -> free_of "/" id = true ->
        RequestID_ServeHTTP uuid hw hr next w = next hw hr w)
  /\ (mutating hr = false -> String.eqb (Method hr) MethodGet = false ->
      RequestID_ServeHTTP uuid hw hr next w = next hw hr w).
Proof.
  split; [| split; [| split]].
  - intros Hmut. unfold RequestID_ServeHTTP. fold (mutating hr).
    now rewrite Hmut.
  - intros id Hm Hpath Hid.
    change ("/devices/" ++ id ++ "/resync")%string
      with ("/" ++ "devices" ++ "/" ++ id ++ "/" ++ "resync")%string in Hpath.
    unfold RequestID_ServeHTTP. rewrite Hm, Hpath. get_method.
    rewrite pieces_3 by (try reflexivity; try assumption; discriminate).
    reflexivity.
  - intros kind id Hm Hpath Hk Hid. unfold RequestID_ServeHTTP.
    rewrite Hm, Hpath. get_method.
    destruct (string_dec id "") as [-> | Hne].
    + replace ("/" ++ kind ++ "/" ++ "")%string with (("/" ++ kind) ++ "/")%string
        by (rewrite append_assoc'; reflexivity).
      rewrite TrimRight_slash.
      destruct (string_dec kind "") as [-> | Hk0]; [reflexivity |].
      rewrite TrimRight_free by assumption. app_norm.
      rewrite Split_sep, Split_free by exact Hk. reflexivity.
    + rewrite pieces_2 by assumption. reflexivity.
  - intros Hmut Hget. unfold RequestID_ServeHTTP. fold (mutating hr).
    now rewrite Hmut, Hget.
Qed.

Lemma RequestID_marks_mutating_and_resync_witness :
  RequestID_ServeHTTP "u-1" hw0 resync_abc (call finished) init
  = call finished hw0 (WithContext resync_abc (Some "u-1"%string)) init
  /\ RequestID_ServeHTTP "u-1" hw0 poll_abc (call finished) init
     = call finished hw0 poll_abc init.
Proof.
  destruct (RequestID_marks_mutating_and_resync "u-1" hw0 resync_abc
              (call finished) init) as (_ & Hresync & _).
  destruct (RequestID_marks_mutating_and_resync "u-1" hw0 poll_abc
              (call finished) init) as (_ & _ & Hpoll & _).
  split.
  - apply (Hresync "abc"%string); reflexivity.
  - apply (Hpoll "queue"%string "abc"%string); reflexivity.
Defined.

(** X17.  The issuer in front of the limiter: a mutating request that
    is let in and answered 202 is recorded under the identifier the
    issuer made, at the current time, and the handler was called with a
    request that carries the same identifier. *)
Theorem issued_identifier_is_the_recorded_one uuid p hw hr next w l x :
  installed w l x -> lock x = false -> mutating hr = true ->
  negroni hw = true ->
  servingCount x < maxcount x -> uint32 (reqRecvCount x + 1) < maxcount x ->
  uuid <> ""%string ->
  status (next hw (WithContext hr (Some uuid))) = StatusAccepted ->
  exists w' x',
    RequestID_ServeHTTP uuid hw hr (limiter p next) w
    = Ok (next hw (WithContext hr (Some uuid))) w'
    /\ installed w' l x'
    /\ requestCache x' !! uuid = Some (now w)
    /\ servingCount x' = uint32 (servingCount x + 1)
    /\ served w' = served w ++ [WithContext hr (Some uuid)]
    /\ GetRequestID (ctxRequestID (WithContext hr (Some uuid))) = uuid.
Proof.
  intros I0 L Hmut Hn Hsc Hrc Hne Hst.
  unfold RequestID_ServeHTTP. fold (mutating hr). rewrite Hmut. cbv zeta.
  unfold limiter, AddRequestID.
  set (hr' := WithContext hr (Some uuid)) in *.
  assert (Hmut' : mutating hr' = true) by exact Hmut.
  rewrite (ServeHTTP_mutating p hw hr' next w l x I0 L Hmut'). cbv zeta.
  cbn [reqRecvCount recvInc set_reqRecvCount].
  apply Z.leb_gt in Hsc. apply Z.leb_gt in Hrc. rewrite Hsc, Hrc, Hn.
  cbn [orb]. rewrite Hst.
  cbn [GetRequestID ctxRequestID hr' WithContext].
  apply String.eqb_neq in Hne. rewrite Hne.
  cbn [Z.eqb StatusAccepted Pos.eqb andb negb].
  eexists _, _. split; [reflexivity |].
  split; [apply (installed_put (serve hr' w) l x); exact I0 |].
  cbn. split; [apply lookup_insert_eq |]. repeat split.
Qed.

Lemma issued_identifier_is_the_recorded_one_witness :
  exists w' x',
    RequestID_ServeHTTP "u-1" hw0 post_abc (limiter None accept) polled_world
    = Ok (accept hw0 (WithContext post_abc (Some "u-1"%string))) w'
    /\ installed w' 0 x'
    /\ requestCache x' !! "u-1"%string = Some 0.
Proof.
  destruct (issued_identifier_is_the_recorded_one "u-1" None hw0 post_abc accept
              polled_world 0%nat polled_limiter (conj eq_refl eq_refl)
              eq_refl eq_refl eq_refl eq_refl eq_refl)
    as (w' & x' & Hs & Hi & Hrec & _); [discriminate | reflexivity |].
  exists w', x'. split; [exact Hs |]. split; [exact Hi | exact Hrec].
Defined.

(** ** Starting and stopping the sweeper *)

Lemma filter_not_receiving c (l : list (chan * Duration)) :
  receiving c l = false -> filter (fun s => fst s <> c) l = l.
Proof.
  unfold receiving. induction l as [|s l IH]; [reflexivity |].
  cbn [existsb]. intros H. apply orb_false_iff in H as [Hs Hl].
  apply Nat.eqb_neq in Hs. rewrite filter_cons.
  destruct (decide (s.1 ≠ c)) as [_ | Heq]; [| contradiction].
  now rewrite (IH Hl).
Qed.

(** X18.  [Cleanup] and then [Stop]: the send of [Stop] is taken by the
    goroutine [Cleanup] has just started, which returns, so that the
    sweepers are those from before; [tr.stop] keeps the channel, and a
    second [Stop] finds nobody receiving on it and blocks. *)
Theorem Stop_ends_the_sweeper_once r1 r2 r3 ct w l x :
  installed w l x -> 0 < ct ->
  receiving (nchan w) (sweepers w) = false ->
  exists c w1 w2,
    Cleanup_start r1 ct w = Ok c w1
    /\ In (c, ct) (sweepers w1)
    /\ Stop r2 w1 = Ok tt w2
    /\ sweepers w2 = sweepers w
    /\ Stop r3 w2 = Blocked w2.
Proof.
  intros I0 Hct Hfresh.
  pose proof (Cleanup_start_eq r1 ct w l x I0 Hct) as E1.
  set (x1 := set_stop (Some (nchan w)) x) in *.
  set (w1 := set_sweepers (sweepers w ++ [(nchan w, ct)])
               (put l x1 (set_nchan (S (nchan w)) w))) in *.
  assert (I1 : installed w1 l x1).
  { apply (installed_put (set_nchan (S (nchan w)) w) l x). exact I0. }
  assert (Hrecv : receiving (nchan w) (sweepers w1) = true).
  { unfold receiving. apply existsb_exists. exists (nchan w, ct).
    split; [| apply Nat.eqb_refl]. cbn. apply in_or_app. right. now left. }
  set (w2 := set_sweepers
               (filter (fun s => fst s <> nchan w) (sweepers w1)) w1).
  assert (I2 : installed w2 l x1) by exact I1.
  exists (nchan w), w1, w2. split; [exact E1 |].
  split; [cbn; apply in_or_app; right; now left |].
  split; [| split].
  - rewrite (Stop_eq r2 w1 l x1 I1). cbn [stop x1 set_stop].
    now rewrite Hrecv.
  - cbn [sweepers w2 w1 set_sweepers]. rewrite filter_app.
    rewrite (filter_not_receiving _ _ Hfresh), filter_cons.
    case_decide as Hne; [now contradiction Hne |]. apply app_nil_r.
  - rewrite (Stop_eq r3 w2 l x1 I2). cbn [stop x1 set_stop].
    cbn [sweepers w2 set_sweepers]. now rewrite receiving_filter.
Qed.

Lemma Stop_ends_the_sweeper_once_witness :
  exists c w1 w2,
    Cleanup_start None Second never_started = Ok c w1
    /\ In (c, Second) (sweepers w1)
    /\ Stop None w1 = Ok tt w2
    /\ sweepers w2 = sweepers never_started
    /\ Stop None w2 = Blocked w2.
Proof.
  apply (Stop_ends_the_sweeper_once None None None Second never_started
           0%nat (newLimiter 4));
    [split; reflexivity | reflexivity | reflexivity].
Defined.

End ThrottleProps.

(** * Properties of the retrying client *)

Module RetryProps.
Import Go Client RetrySpec GoProps.
Local Open Scope Z_scope.
Local Open Scope go_scope.

(** ** One call *)

Lemma do_eq c req w a rest :
  script w = a :: rest -> (throttle w < MAX_CONCURRENT_REQUESTS)%nat ->
  do c req w
  = Ok a {| now := now w; script := rest; rng := rng w; throttle := throttle w;
            log := log w ++ [Sent req (now w)] |}.
Proof.
  intros Hs Ht. unfold do, bind, acquire, httpClient_Do, release, ret.
  apply Nat.ltb_lt in Ht. rewrite Ht. cbn. rewrite Hs. reflexivity.
Qed.

Lemma random_eq min max w :
  min < max ->
  exists n, min <= n < max
    /\ random min max w = Ok n (set_rng (tl (rng w)) w).
Proof.
  intros Hlt. unfold random, bind, rand_Intn, ret.
  destruct (max - min <=? 0) eqn:Hle; [apply Z.leb_le in Hle; lia |].
  destruct (rng w) as [|x rest] eqn:Hr.
  - exists (0 + min). split; [lia |]. cbn [tl]. f_equal.
    destruct w; cbn in *. now subst.
  - exists (x mod (max - min) + min). split; [| reflexivity].
    pose proof (Z.mod_pos_bound x (max - min)). lia.
Qed.

(** An attempt answered with an overload: the body is discarded, the
    client sleeps within the bounds, and the loop goes on. *)
Lemma retryLoop_overload n c req body w r rest :
  script w = inl r :: rest -> overloaded r ->
  (throttle w < MAX_CONCURRENT_REQUESTS)%nat ->
  exists d w1,
    in_jitter d
    /\ retryLoop (S n) c req body w
       = retryLoop n c (set_Body (Some body) req) body w1
    /\ log w1 = log w ++ [Sent (set_Body (Some body) req) (now w); Discarded r; Slept d]
    /\ now w1 = Time_Add (now w) d
    /\ script w1 = rest /\ throttle w1 = throttle w.
Proof.
  intros Hs Ho Ht. cbn [retryLoop].
  erewrite bind_Ok by (apply do_eq; [exact Hs | exact Ht]).
  cbv beta iota. unfold overloaded in Ho. rewrite Ho, Z.eqb_refl.
  erewrite bind_Ok by reflexivity.
  edestruct (random_eq 10 40) as (num & Hnum & Hrand); [lia |].
  erewrite bind_Ok by exact Hrand.
  erewrite bind_Ok by reflexivity.
  eexists (Second * num), _. split; [| split; [reflexivity |]].
  - unfold in_jitter, Second. lia.
  - cbn. rewrite <- !app_assoc. cbn.
    replace (Z.max (Second * num) 0) with (Second * num)
      by (unfold Second; lia).
    repeat split.
Qed.

Lemma retryLoop_body n c req body :
  retryLoop n c (set_Body (Some body) req) body = retryLoop n c req body.
Proof. destruct n; reflexivity. Qed.

(** The attempts answered with an overload, one after the other. *)
Lemma retryLoop_rounds c req body : forall rs n w tail,
  script w = map inl rs ++ tail -> Forall overloaded rs ->
  (throttle w < MAX_CONCURRENT_REQUESTS)%nat ->
  exists ds w1,
    length ds = length rs /\ Forall in_jitter ds
    /\ retryLoop (length rs + n) c req body w
       = retryLoop n c (set_Body (Some body) req) body w1
    /\ log w1 = log w ++ retry_events (set_Body (Some body) req) (now w)
                           (combine rs ds)
    /\ now w1 = now w + total ds
    /\ script w1 = tail /\ throttle w1 = throttle w.
Proof.
  induction rs as [|r rs IH]; intros n w tail Hs Hall Ht.
  - exists [], w. cbn. rewrite app_nil_r, Z.add_0_r, retryLoop_body.
    repeat split; [constructor | exact Hs].
  - inversion Hall as [|? ? Hr Hrs]; subst.
    destruct (retryLoop_overload (length rs + n) c req body w r
                (map inl rs ++ tail) Hs Hr Ht)
      as (d & w1 & Hd & Hstep & Hlog1 & Hnow1 & Hs1 & Ht1).
    destruct (IH n w1 tail Hs1 Hrs ltac:(now rewrite Ht1))
      as (ds & w2 & Hlen & Hds & Hrest & Hlog2 & Hnow2 & Hs2 & Ht2).
    exists (d :: ds), w2. cbn [length combine retry_events total fold_right].
    split; [now rewrite Hlen |]. split; [now constructor |].
    split; [| split; [| split; [| split]]].
    + cbn [Nat.add]. rewrite Hstep, retryLoop_body. rewrite Hrest.
      reflexivity.
    + rewrite Hlog2, Hlog1, Hnow1. rewrite <- app_assoc. reflexivity.
    + rewrite Hnow2, Hnow1. unfold Time_Add, total. lia.
    + exact Hs2.
    + now rewrite Ht2.
Qed.

(** ** The retry loop *)

Lemma in_jitter_seconds d : in_jitter d -> 10000000000 <= d < 40000000000.
Proof. unfold in_jitter, Second. lia. Qed.

(** C6.  Let the first [k] answers be overloads and let there be room
    in the throttle.  When [k < retryCount] and the next answer is a
    response of another status, [retryOperationDo] returns that
    response and no error, after exactly [k] sleeps, each within the
    bounds of [random(10, 40)] seconds; every attempt was sent with the
    body set from the retained payload, and each overload answer had its
    body discarded before the sleep.  When [k = retryCount] it returns
    the nil response and the error "Failed to complete requested
    operation", after [k] such attempts. *)
Theorem retryOperationDo_retries_on_overload c req body w rs :
  Forall overloaded rs ->
  (throttle w < MAX_CONCURRENT_REQUESTS)%nat ->
  (forall r rest,
     script w = map inl rs ++ inl r :: rest ->
     ~ overloaded r ->
     (length rs < Z.to_nat (retryCount c))%nat ->
     exists ds w',
       length ds = length rs /\ Forall in_jitter ds
       /\ retryOperationDo c req body w = Ok (Some r, None) w'
       /\ log w' = log w
                   ++ retry_events (set_Body (Some body) req) (now w) (combine rs ds)
                   ++ [Sent (set_Body (Some body) req) (now w + total ds)]
       /\ now w' = now w + total ds
       /\ script w' = rest /\ throttle w' = throttle w)
  /\ (forall rest,
        script w = map inl rs ++ rest ->
        length rs = Z.to_nat (retryCount c) ->
        exists ds w',
          length ds = length rs /\ Forall in_jitter ds
          /\ retryOperationDo c req body w
             = Ok (None, Some "Failed to complete requested operation"%string) w'
          /\ log w' = log w
                      ++ retry_events (set_Body (Some body) req) (now w)
                           (combine rs ds)
          /\ script w' = rest /\ throttle w' = throttle w).
Proof.
  intros Hall Ht. split.
  - intros r rest Hs Hr Hlt.
    destruct (retryLoop_rounds c req body rs
                (Z.to_nat (retryCount c) - length rs) w (inl r :: rest)
                Hs Hall Ht)
      as (ds & w1 & Hlen & Hds & Hloop & Hlog & Hnow & Hs1 & Ht1).
    replace (length rs + (Z.to_nat (retryCount c) - length rs))%nat
      with (Z.to_nat (retryCount c)) in Hloop by lia.
    destruct (Z.to_nat (retryCount c) - length rs)%nat as [|m] eqn:Hm; [lia |].
    exists ds. eexists. split; [exact Hlen |]. split; [exact Hds |].
    unfold retryOperationDo. rewrite Hloop. cbn [retryLoop].
    erewrite bind_Ok
      by (apply do_eq; [exact Hs1 | now rewrite Ht1]).
    cbv beta iota. unfold overloaded in Hr. apply Z.eqb_neq in Hr. rewrite Hr.
    split; [reflexivity |]. cbn [log now script throttle].
    rewrite Hlog, Hnow, Ht1, <- app_assoc. repeat split.
  - intros rest Hs Hlen0.
    destruct (retryLoop_rounds c req body rs 0 w rest Hs Hall Ht)
      as (ds & w1 & Hlen & Hds & Hloop & Hlog & Hnow & Hs1 & Ht1).
    rewrite Nat.add_0_r, Hlen0 in Hloop.
    exists ds, w1. split; [exact Hlen |]. split; [exact Hds |].
    unfold retryOperationDo. rewrite Hloop.
    split; [reflexivity |]. now repeat split.
Qed.

Lemma retryOperationDo_retries_on_overload_witness :
  exists ds w',
    length ds = 3%nat /\ Forall in_jitter ds
    /\ retryOperationDo (NewClient "http://heketi" "admin" "secret")
         volume_create "{size:10}" scenario_D
       = Ok (Some created, None) w'
    /\ sent_requests (log w')
       = repeat (set_Body (Some "{size:10}"%string) volume_create) 4.
Proof.
  destruct (retryOperationDo_retries_on_overload
              (NewClient "http://heketi" "admin" "secret")
              volume_create "{size:10}" scenario_D [busy; busy; busy])
    as [Hok _].
  - repeat constructor.
  - vm_compute. lia.
  - destruct (Hok created []) as (ds & w' & Hlen & Hds & Hrun & Hlog & _).
    + reflexivity.
    + unfold overloaded. vm_compute. discriminate.
    + vm_compute. lia.
    + exists ds, w'. split; [exact Hlen |]. split; [exact Hds |].
      split; [exact Hrun |]. rewrite Hlog.
      destruct ds as [|d1 [|d2 [|d3 [|d4 ds]]]]; try discriminate.
      reflexivity.
Defined.

(** X19.  An error of the transport ends the loop at once, also after
    overloads: [retryOperationDo] returns that error and no response,
    and does not try again. *)
Lemma retryOperationDo_transport_error c req body w rs e rest :
  Forall overloaded rs ->
  (throttle w < MAX_CONCURRENT_REQUESTS)%nat ->
  script w = map inl rs ++ inr e :: rest ->
  (length rs < Z.to_nat (retryCount c))%nat ->
  exists w', retryOperationDo c req body w = Ok (None, Some e) w'.
Proof.
  intros Hall Ht Hs Hlt.
  destruct (retryLoop_rounds c req body rs
              (Z.to_nat (retryCount c) - length rs) w (inr e :: rest)
              Hs Hall Ht)
    as (ds & w1 & _ & _ & Hloop & _ & _ & Hs1 & Ht1).
  replace (length rs + (Z.to_nat (retryCount c) - length rs))%nat
    with (Z.to_nat (retryCount c)) in Hloop by lia.
  destruct (Z.to_nat (retryCount c) - length rs)%nat as [|m] eqn:Hm; [lia |].
  unfold retryOperationDo. rewrite Hloop. cbn [retryLoop].
  erewrite bind_Ok by (apply do_eq; [exact Hs1 | now rewrite Ht1]).
  eexists. reflexivity.
Qed.

(** ** The token *)

Lemma do_log c req w :
  do c req w = Blocked w
  \/ exists a w', do c req w = Ok a w' /\ log w' = log w ++ [Sent req (now w)].
Proof.
  unfold do, bind, acquire, httpClient_Do, release, ret.
  destruct (throttle w <? MAX_CONCURRENT_REQUESTS)%nat; [| now left].
  right. cbn. destruct (script w); eexists _, _; split; reflexivity.
Qed.

(** Every request the retry loop hands to [do] is the request it was
    given, with the body set from the payload. *)
Lemma retryLoop_sends c body : forall n req w,
  match retryLoop n c req body w with
  | Ok _ w' | Blocked w' =>
      exists evs, log w' = log w ++ evs
        /\ Forall (fun rq => rq = set_Body (Some body) req) (sent_requests evs)
  | Panic _ => True
  end.
Proof.
  induction n as [|n IH]; intros req w; cbn [retryLoop].
  - exists []. split; [now rewrite app_nil_r | constructor].
  - unfold bind at 1.
    destruct (do_log c (set_Body (Some body) req) w)
      as [Hb | (a & w1 & Hdo & Hlog1)].
    + rewrite Hb. exists []. split; [now rewrite app_nil_r | constructor].
    + rewrite Hdo. destruct a as [r | e].
      2:{ exists [Sent (set_Body (Some body) req) (now w)].
          split; [exact Hlog1 | now repeat constructor]. }
      destruct (StatusCode r =? StatusTooManyRequests).
      2:{ exists [Sent (set_Body (Some body) req) (now w)].
          split; [exact Hlog1 | now repeat constructor]. }
      erewrite bind_Ok by reflexivity.
      edestruct (random_eq 10 40) as (num & _ & Hrand); [lia |].
      erewrite bind_Ok by exact Hrand.
      erewrite bind_Ok by reflexivity.
      match goal with |- context [retryLoop n c ?rq body ?w2] =>
        specialize (IH rq w2);
        destruct (retryLoop n c rq body w2) as [b w3| |w3]; [| exact I |];
          destruct IH as (evs & Hlog & Hall);
          (exists (Sent (set_Body (Some body) req) (now w) :: Discarded r
                   :: Slept (Second * num) :: evs));
          (split;
           [ rewrite Hlog; cbn; rewrite Hlog1, <- !app_assoc; reflexivity
           | cbn; constructor; [reflexivity | exact Hall] ])
      end.
Qed.

Section Token.
Context `{crypto : Crypto}.

(** C7, as amended.  [checkRedirect] is [setToken]: whenever the HTTP
    library is about to follow a redirect, the request it will send
    gets a new Authorization header, "bearer " and the signature of the
    claims: the user as issuer, the time of that moment in seconds as
    issue time, five minutes later as expiry, and the hash of that
    request's method, "&" and path.  The retry loop mints nothing: every
    attempt of [retryOperationDo] sends the request it was given, header
    for header, with the body set from the payload. *)
Theorem token_minted_on_redirect_not_on_retry :
  (forall c req via w, checkRedirect c req via w = setToken c req w)
  /\ (forall c req w signed,
        SignedString
          {| iss := user c;
             iat := Time_Unix (now w);
             exp := Time_Unix (Time_Add (now w) (5 * Minute));
             qsh := sha256_hex (Method req ++ "&" ++ URL_Path req)%string |}
          (key c) = inl signed ->
        setToken c req w
        = Ok (set_ReqHeader
                (Header_Set (ReqHeader req) "Authorization"
                   ("bearer " ++ signed)%string) req, None) w)
  /\ (forall c req body w a w',
        retryOperationDo c req body w = Ok a w' ->
        exists evs,
          log w' = log w ++ evs
          /\ Forall (fun rq => rq = set_Body (Some body) req) (sent_requests evs)
          /\ Forall (fun rq => Header_Get (ReqHeader rq) "Authorization"
                               = Header_Get (ReqHeader req) "Authorization")
               (sent_requests evs)).
Proof.
  split; [reflexivity |]. split.
  - intros c req w signed Hsig. unfold setToken, bind, time_Now, token_claims.
    now rewrite Hsig.
  - intros c req body w a w' Hrun. unfold retryOperationDo in Hrun.
    pose proof (retryLoop_sends c body (Z.to_nat (retryCount c)) req w) as H.
    rewrite Hrun in H. destruct H as (evs & Hlog & Hall).
    exists evs. split; [exact Hlog |]. split; [exact Hall |].
    eapply Forall_impl; [exact Hall |]. intros rq ->. reflexivity.
Qed.

End Token.

Lemma token_minted_on_redirect_not_on_retry_witness :
  checkRedirect (crypto := toy_crypto) heketi_client volume_create [] one_overload
  = Ok (signed_create, None) one_overload
  /\ retryOperationDo heketi_client signed_create "{size:10}" one_overload
     = Ok (Some created, None) after_retry
  /\ Forall (fun rq => Header_Get (ReqHeader rq) "Authorization"
                       = "bearer secret.admin.POST&/volumes."%string)
       (sent_requests (log after_retry)).
Proof.
  destruct (token_minted_on_redirect_not_on_retry (crypto := toy_crypto))
    as (Hredirect & Hmint & Hretry).
  assert (Hrun : retryOperationDo heketi_client signed_create "{size:10}"
                   one_overload = Ok (Some created, None) after_retry)
    by (vm_compute; reflexivity).
  split; [| split].
  - rewrite Hredirect. apply Hmint. reflexivity.
  - exact Hrun.
  - destruct (Hretry _ _ _ _ _ _ Hrun) as (evs & Hlog & _ & Hauth).
    cbn [log one_overload app] in Hlog. rewrite Hlog. exact Hauth.
Defined.

(** C7, as stated, fails on a retry: the second attempt, sent 17
    seconds after the first, still carries the token issued at second
    0, and not the one [setToken] would make at that moment. *)
Lemma retry_reuses_the_first_token :
  setToken (crypto := toy_crypto) heketi_client volume_create one_overload
  = Ok (signed_create, None) one_overload
  /\ retryOperationDo heketi_client signed_create "{size:10}" one_overload
     = Ok (Some created, None) after_retry
  /\ exists rq fresh,
       last (log after_retry) = Some (Sent rq (17 * Second))
       /\ Header_Get (ReqHeader rq) "Authorization"
          = "bearer secret.admin.POST&/volumes."%string
       /\ setToken (crypto := toy_crypto) heketi_client rq after_retry
          = Ok (fresh, None) after_retry
       /\ Header_Get (ReqHeader fresh) "Authorization"
          = "bearer secret.admin.POST&/volumes.iiiiiiiiiiiiiiiii"%string
       /\ Header_Get (ReqHeader rq) "Authorization"
          <> Header_Get (ReqHeader fresh) "Authorization".
Proof.
  split; [vm_compute; reflexivity |].
  split; [vm_compute; reflexivity |].
  eexists _, _.
  split; [vm_compute; reflexivity |].
  split; [vm_compute; reflexivity |].
  split; [vm_compute; reflexivity |].
  split; [vm_compute; reflexivity |].
  vm_compute. discriminate.
Qed.


(** ** The throttle of the client *)

Lemma do_any c req w :
  (throttle w < MAX_CONCURRENT_REQUESTS)%nat ->
  do c req w = Ok (hd (inr "EOF"%string) (script w)) (after_do req w).
Proof.
  intros Ht. unfold do, bind, acquire, httpClient_Do, release, ret.
  apply Nat.ltb_lt in Ht. rewrite Ht. cbn.
  destruct (script w) as [|a rest] eqn:Hs;
    unfold after_do, set_throttle, set_script, emit; cbn; rewrite ?Hs;
    reflexivity.
Qed.

(** X20.  [do] sends the request exactly once when fewer than
    [MAX_CONCURRENT_REQUESTS] calls are in flight, and gives its slot
    back whether the transport answered or failed; with all slots
    taken it waits and nothing is sent.  It never panics. *)
Theorem do_takes_and_returns_one_slot c req w :
  match do c req w with
  | Ok a w' =>
      (throttle w < MAX_CONCURRENT_REQUESTS)%nat
      /\ throttle w' = throttle w
      /\ log w' = log w ++ [Sent req (now w)]
      /\ now w' = now w
      /\ a = hd (inr "EOF"%string) (script w)
  | Blocked w' => w' = w /\ (MAX_CONCURRENT_REQUESTS <= throttle w)%nat
  | Panic _ => False
  end.
Proof.
  destruct (Nat.ltb_spec (throttle w) MAX_CONCURRENT_REQUESTS) as [Hlt | Hge].
  - rewrite (do_any c req w Hlt). repeat split. exact Hlt.
  - unfold do, bind, acquire.
    apply Nat.ltb_ge in Hge as Hb. rewrite Hb. split; [reflexivity | exact Hge].
Qed.

(** ** The range of [random] *)



(** ** The end of the retries *)

(** X22.  When every one of the [retryCount] attempts is answered with
    an overload, [retryOperationDo] gives up with the error "Failed to
    complete requested operation" and no response.  It has then sent
    exactly [retryCount] requests, and it has slept after each of them,
    the last one too.  The answers behind them are not looked at. *)
Theorem retryOperationDo_gives_up c req body w rs tail :
  Forall overloaded rs ->
  (throttle w < MAX_CONCURRENT_REQUESTS)%nat ->
  script w = map inl rs ++ tail ->
  length rs = Z.to_nat (retryCount c) ->
  exists ds w',
    length ds = length rs /\ Forall in_jitter ds
    /\ retryOperationDo c req body w
       = Ok (None, Some "Failed to complete requested operation"%string) w'
    /\ log w' = log w ++ retry_events (set_Body (Some body) req) (now w)
                           (combine rs ds)
    /\ now w' = now w + total ds
    /\ script w' = tail.
Proof.
  intros Hall Ht Hs Hlen.
  destruct (retryLoop_rounds c req body rs 0%nat w tail Hs Hall Ht)
    as (ds & w1 & Hl & Hds & Hloop & Hlog & Hnow & Hs1 & _).
  exists ds, w1. split; [exact Hl |]. split; [exact Hds |].
  split; [| split; [exact Hlog | split; [exact Hnow | exact Hs1]]].
  unfold retryOperationDo. rewrite <- Hlen.
  rewrite Nat.add_0_r in Hloop. rewrite Hloop. reflexivity.
Qed.

Lemma retryOperationDo_gives_up_witness :
  exists ds w',
    length ds = 2%nat /\ Forall in_jitter ds
    /\ retryOperationDo impatient volume_create "{size:10}" always_busy
       = Ok (None, Some "Failed to complete requested operation"%string) w'
    /\ script w' = [inl created].
Proof.
  destruct (retryOperationDo_gives_up impatient volume_create "{size:10}"
              always_busy [busy; busy] [inl created])
    as (ds & w' & Hl & Hds & Hr & _ & _ & Hs).
  - repeat constructor.
  - cbn. unfold MAX_CONCURRENT_REQUESTS. lia.
  - reflexivity.
  - reflexivity.
  - exists ds, w'. split; [exact Hl |]. split; [exact Hds |].
    split; [exact Hr | exact Hs].
Defined.

(** X23.  With a retry count of zero or less the loop is not entered:
    [retryOperationDo] fails at once, and nothing is sent. *)
Theorem retryOperationDo_without_attempts c req body w :
  retryCount c <= 0 ->
  retryOperationDo c req body w
  = Ok (None, Some "Failed to complete requested operation"%string) w.
Proof.
  intros Hle. unfold retryOperationDo.
  replace (Z.to_nat (retryCount c)) with 0%nat by lia. reflexivity.
Qed.

Lemma retryOperationDo_without_attempts_witness :
  retryOperationDo (NewClientWithRetry "http://heketi" "admin" "secret" 0)
    volume_create "{size:10}" scenario_D
  = Ok (None, Some "Failed to complete requested operation"%string) scenario_D.
Proof.
  apply (retryOperationDo_without_attempts
           (NewClientWithRetry "http://heketi" "admin" "secret" 0)).
  cbn. lia.
Defined.

Lemma retryOperationDo_transport_error_witness :
  exists w',
    retryOperationDo heketi_client volume_create "{size:10}" refused
    = Ok (None, Some "connection refused"%string) w'.
Proof.
  apply (retryOperationDo_transport_error heketi_client volume_create
           "{size:10}" refused [busy] "connection refused" []).
  - repeat constructor.
  - cbn. unfold MAX_CONCURRENT_REQUESTS. lia.
  - reflexivity.
  - vm_compute. lia.
Defined.

(** ** The token *)

Section TokenProps.
Context `{crypto : Crypto}.

Lemma setToken_eq c r w :
  setToken c r w
  = Ok match SignedString
               (token_claims c (Method r) (URL_Path r) (now w) (now w)) (key c) with
       | inr err => (r, Some err)
       | inl s =>
           (set_ReqHeader
              (Header_Set (ReqHeader r) "Authorization" ("bearer " ++ s)%string) r,
            None)
       end w.
Proof.
  unfold setToken, bind, time_Now.
  destruct (SignedString _ _); reflexivity.
Qed.


(** X25.  The token is good for at least 300 seconds from its issue
    time, and for exactly 300 when both readings of the clock
    agree, whatever the fraction of the second. *)
Theorem token_lives_five_minutes c method path t1 t2 :
  t1 <= t2 ->
  iat (token_claims c method path t1 t2) + 300
  <= exp (token_claims c method path t1 t2)
  /\ (t1 = t2 ->
      exp (token_claims c method path t1 t2)
      = iat (token_claims c method path t1 t2) + 300).
Proof.
  intros Hle. unfold token_claims, Time_Unix, Time_Add, Minute. cbn [iat exp].
  replace (t2 + 5 * (60 * Second)) with (t2 + 300 * Second) by lia.
  rewrite Z.div_add by (unfold Second; lia).
  split.
  - pose proof (Z.div_le_mono t1 t2 Second ltac:(unfold Second; lia) Hle). lia.
  - intros ->. reflexivity.
Qed.

End TokenProps.

Lemma token_lives_five_minutes_witness :
  iat (token_claims (crypto := toy_crypto) heketi_client "GET" "/hello"
         1999999999 2000000000) + 300
  <= exp (token_claims (crypto := toy_crypto) heketi_client "GET" "/hello"
            1999999999 2000000000).
Proof.
  apply (token_lives_five_minutes (crypto := toy_crypto) heketi_client
           "GET" "/hello" 1999999999 2000000000).
  lia.
Defined.

(** ** [Hello] and the wait for an asynchronous operation *)

Section PollProps.
Context `{crypto : Crypto} `{http : Http}.

(** X26.  [Hello] sends one [GET] of the path of [host + "/hello"],
    signed at the time of the call; it returns nil exactly when the
    answer has status 200, and the error made of the response
    otherwise. *)
Theorem Hello_sends_one_signed_GET c w path r rest :
  url_Parse (host c ++ "/hello") = inl path ->
  signs c path ->
  script w = inl r :: rest ->
  (throttle w < MAX_CONCURRENT_REQUESTS)%nat ->
  exists w',
    Hello c w
    = Ok (if StatusCode r =? StatusOK then None
          else Some (GetErrorFromResponse r)) w'
    /\ log w' = log w ++ [Sent (signed_get c path (now w)) (now w)]
    /\ script w' = rest /\ now w' = now w /\ throttle w' = throttle w.
Proof.
  intros Hp Hsig Hs Ht. unfold Hello, http_NewRequest. rewrite Hp.
  erewrite bind_Ok by apply setToken_eq.
  cbn [Method URL_Path ReqHeader].
  destruct (Hsig (now w)) as (s & Hsign).
  assert (Hreq : signed_get c path (now w)
                 = {| Method := "GET"; URL_Path := path;
                      ReqHeader := Header_Set ∅ "Authorization" ("bearer " ++ s);
                      Body := None |})
    by (unfold signed_get; now rewrite Hsign).
  rewrite Hsign. cbn [snd fst].
  erewrite bind_Ok by (apply do_eq; [exact Hs | exact Ht]).
  cbv beta iota. rewrite Hreq.
  destruct (StatusCode r =? StatusOK); cbn [negb];
    eexists; (split; [reflexivity |]); repeat split.
Qed.

(** One poll that is answered "still running". *)
Lemma pollLoop_pending fuel c location waitTime w path r rest :
  url_Parse location = inl path -> signs c path ->
  script w = inl r :: rest -> in_progress r ->
  (throttle w < MAX_CONCURRENT_REQUESTS)%nat ->
  pollLoop (S fuel) c location waitTime w
  = pollLoop fuel c location waitTime
      {| now := Time_Add (now w) (Z.max waitTime 0); script := rest;
         rng := rng w; throttle := throttle w;
         log := log w ++ [Sent (signed_get c path (now w)) (now w);
                          Slept waitTime] |}.
Proof.
  intros Hp Hsig Hs [Hpend Hok] Ht. cbn [pollLoop]. unfold http_NewRequest.
  rewrite Hp. erewrite bind_Ok by apply setToken_eq.
  cbn [Method URL_Path ReqHeader].
  destruct (Hsig (now w)) as (s & Hsign).
  assert (Hreq : signed_get c path (now w)
                 = {| Method := "GET"; URL_Path := path;
                      ReqHeader := Header_Set ∅ "Authorization" ("bearer " ++ s);
                      Body := None |})
    by (unfold signed_get; now rewrite Hsign).
  rewrite Hsign. cbn [snd fst].
  erewrite bind_Ok by (apply do_eq; [exact Hs | exact Ht]).
  cbv beta iota. unfold pending in Hpend. rewrite Hpend, Hok.
  cbn [String.eqb Ascii.eqb Bool.eqb andb negb Z.eqb StatusOK Pos.eqb].
  erewrite bind_Ok by reflexivity.
  rewrite Hreq. unfold emit, set_now. cbn. rewrite <- app_assoc. reflexivity.
Qed.

(** The last poll: any other answer ends the loop. *)
Lemma pollLoop_last fuel c location waitTime w path a rest :
  url_Parse location = inl path -> signs c path ->
  script w = a :: rest ->
  (throttle w < MAX_CONCURRENT_REQUESTS)%nat ->
  let w' := {| now := now w; script := rest; rng := rng w;
               throttle := throttle w;
               log := log w ++ [Sent (signed_get c path (now w)) (now w)] |} in
  pollLoop (S fuel) c location waitTime w
  = match a with
    | inr err => Ok (Some (None, Some err)) w'
    | inl r =>
        if String.eqb (Header_Get (RespHeader r) "X-Pending") "true" then
          if negb (StatusCode r =? StatusOK)
          then Ok (Some (None, Some (GetErrorFromResponse r))) w'
          else (time_Sleep waitTime ;;; pollLoop fuel c location waitTime) w'
        else Ok (Some (Some r, None)) w'
    end.
Proof.
  intros Hp Hsig Hs Ht. cbn [pollLoop]. unfold http_NewRequest.
  rewrite Hp. erewrite bind_Ok by apply setToken_eq.
  cbn [Method URL_Path ReqHeader].
  destruct (Hsig (now w)) as (s & Hsign).
  assert (Hreq : signed_get c path (now w)
                 = {| Method := "GET"; URL_Path := path;
                      ReqHeader := Header_Set ∅ "Authorization" ("bearer " ++ s);
                      Body := None |})
    by (unfold signed_get; now rewrite Hsign).
  rewrite Hsign. cbn [snd fst].
  erewrite bind_Ok by (apply do_eq; [exact Hs | exact Ht]).
  cbv beta iota zeta. rewrite Hreq.
  destruct a as [r | err]; [| reflexivity].
  destruct (String.eqb _ _); [| reflexivity].
  destruct (negb _); reflexivity.
Qed.

(** The polls answered "still running", one after the other. *)
Lemma pollLoop_rounds c location waitTime path :
  url_Parse location = inl path -> signs c path ->
  forall rs n w tail,
    script w = map inl rs ++ tail -> Forall in_progress rs ->
    (throttle w < MAX_CONCURRENT_REQUESTS)%nat ->
    exists w1,
      pollLoop (length rs + n) c location waitTime w
      = pollLoop n c location waitTime w1
      /\ log w1 = log w ++ poll_events c path (now w) waitTime (length rs)
      /\ now w1 = now w + Z.of_nat (length rs) * Z.max waitTime 0
      /\ script w1 = tail /\ throttle w1 = throttle w.
Proof.
  intros Hp Hsig. induction rs as [|r rs IH]; intros n w tail Hs Hall Ht.
  - exists w. cbn. rewrite app_nil_r. repeat split; [lia | exact Hs].
  - inversion Hall as [|? ? Hr Hrs]; subst.
    cbn [length Nat.add].
    rewrite (pollLoop_pending (length rs + n) c location waitTime w path r
               (map inl rs ++ tail) Hp Hsig Hs Hr Ht).
    match goal with
    | |- context [pollLoop (length rs + n) c location waitTime ?w0] =>
        destruct (IH n w0 tail eq_refl Hrs Ht)
          as (w2 & Hloop & Hlog & Hnow & Hs2 & Ht2)
    end.
    exists w2. split; [exact Hloop |].
    cbn [log now script throttle] in Hlog, Hnow, Hs2, Ht2.
    split; [| split; [| split; [exact Hs2 | exact Ht2]]].
    + rewrite Hlog. cbn [poll_events]. rewrite <- app_assoc. reflexivity.
    + rewrite Hnow. unfold Time_Add. lia.
Qed.

(** X27.  [waitForResponseWithTimer] polls the location of the
    response it is given.  While the answers are 200 with
    [X-Pending: true] it sleeps [waitTime] and polls again; the first
    answer without that header is returned as it is, whatever its
    status, with no error.  Every poll is a [GET] with a token made at
    the time of that poll. *)
Theorem waitForResponseWithTimer_polls_until_done
    fuel c r0 waitTime w location path rs r rest :
  Response_Location r0 = inl location ->
  url_Parse location = inl path -> signs c path ->
  script w = map inl rs ++ inl r :: rest ->
  Forall in_progress rs -> ~ pending r ->
  (throttle w < MAX_CONCURRENT_REQUESTS)%nat ->
  (length rs < fuel)%nat ->
  exists w',
    waitForResponseWithTimer fuel c r0 waitTime w = Ok (Some (Some r, None)) w'
    /\ now w' = now w + Z.of_nat (length rs) * Z.max waitTime 0
    /\ log w' = log w ++ poll_events c path (now w) waitTime (length rs)
                      ++ [Sent (signed_get c path (now w')) (now w')]
    /\ script w' = rest /\ throttle w' = throttle w.
Proof.
  intros Hloc Hp Hsig Hs Hall Hdone Ht Hfuel.
  unfold waitForResponseWithTimer. rewrite Hloc.
  destruct (pollLoop_rounds c location waitTime path Hp Hsig rs
              (fuel - length rs) w (inl r :: rest) Hs Hall Ht)
    as (w1 & Hloop & Hlog & Hnow & Hs1 & Ht1).
  replace (length rs + (fuel - length rs))%nat with fuel in Hloop by lia.
  rewrite Hloop.
  destruct (fuel - length rs)%nat as [|m] eqn:Hm; [lia |].
  rewrite (pollLoop_last m c location waitTime w1 path (inl r) rest Hp Hsig Hs1
             ltac:(now rewrite Ht1)).
  cbv zeta. unfold pending in Hdone.
  apply String.eqb_neq in Hdone. rewrite Hdone.
  eexists. split; [reflexivity |]. cbn [now log script throttle].
  split; [exact Hnow |]. split; [now rewrite Hlog, <- app_assoc |].
  split; [reflexivity | exact Ht1].
Qed.

(** X28.  The wait ends with an error when a poll fails in the
    transport, or when an answer has [X-Pending: true] and a status
    other than 200: the error of the transport, or the error made of
    that response.  No response is returned, and the client does not
    sleep after that poll. *)
Theorem waitForResponseWithTimer_fails
    fuel c r0 waitTime w location path rs a e rest :
  Response_Location r0 = inl location ->
  url_Parse location = inl path -> signs c path ->
  script w = map inl rs ++ a :: rest ->
  Forall in_progress rs ->
  (a = inr e
   \/ exists r, a = inl r /\ pending r /\ StatusCode r <> StatusOK
                /\ e = GetErrorFromResponse r) ->
  (throttle w < MAX_CONCURRENT_REQUESTS)%nat ->
  (length rs < fuel)%nat ->
  exists w',
    waitForResponseWithTimer fuel c r0 waitTime w = Ok (Some (None, Some e)) w'
    /\ log w' = log w ++ poll_events c path (now w) waitTime (length rs)
                      ++ [Sent (signed_get c path (now w')) (now w')]
    /\ script w' = rest.
Proof.
  intros Hloc Hp Hsig Hs Hall Hbad Ht Hfuel.
  unfold waitForResponseWithTimer. rewrite Hloc.
  destruct (pollLoop_rounds c location waitTime path Hp Hsig rs
              (fuel - length rs) w (a :: rest) Hs Hall Ht)
    as (w1 & Hloop & Hlog & Hnow & Hs1 & Ht1).
  replace (length rs + (fuel - length rs))%nat with fuel in Hloop by lia.
  rewrite Hloop.
  destruct (fuel - length rs)%nat as [|m] eqn:Hm; [lia |].
  rewrite (pollLoop_last m c location waitTime w1 path a rest Hp Hsig Hs1
             ltac:(now rewrite Ht1)).
  cbv zeta.
  destruct Hbad as [-> | (r & -> & Hpend & Hst & ->)].
  - eexists. split; [reflexivity |]. cbn [now log script].
    split; [now rewrite Hlog, <- app_assoc | reflexivity].
  - unfold pending in Hpend. rewrite Hpend.
    apply Z.eqb_neq in Hst. rewrite Hst.
    cbn [String.eqb Ascii.eqb Bool.eqb andb negb].
    eexists. split; [reflexivity |]. cbn [now log script].
    split; [now rewrite Hlog, <- app_assoc | reflexivity].
Qed.

(** X29.  The wait has no bound of its own: after any number of
    answers "still running" the loop is still polling, one sleep of
    [waitTime] behind each of them. *)
Theorem waitForResponseWithTimer_never_gives_up
    c r0 waitTime w location path rs tail :
  Response_Location r0 = inl location ->
  url_Parse location = inl path -> signs c path ->
  script w = map inl rs ++ tail ->
  Forall in_progress rs ->
  (throttle w < MAX_CONCURRENT_REQUESTS)%nat ->
  exists w',
    waitForResponseWithTimer (length rs) c r0 waitTime w = Ok None w'
    /\ now w' = now w + Z.of_nat (length rs) * Z.max waitTime 0
    /\ log w' = log w ++ poll_events c path (now w) waitTime (length rs)
    /\ script w' = tail.
Proof.
  intros Hloc Hp Hsig Hs Hall Ht.
  unfold waitForResponseWithTimer. rewrite Hloc.
  destruct (pollLoop_rounds c location waitTime path Hp Hsig rs 0%nat w tail
              Hs Hall Ht)
    as (w1 & Hloop & Hlog & Hnow & Hs1 & _).
  rewrite Nat.add_0_r in Hloop. rewrite Hloop.
  exists w1. split; [reflexivity |].
  split; [exact Hnow | split; [exact Hlog | exact Hs1]].
Qed.

(** X30.  Before the first poll: when the response has no Location
    header, when the location is no URL, or when the token cannot be
    signed, the wait returns that error at once, and nothing has
    been sent. *)
Theorem waitForResponseWithTimer_sends_nothing_on_setup_error
    fuel c r0 waitTime w :
  (Header_Get (RespHeader r0) "Location" = ""%string ->
   waitForResponseWithTimer fuel c r0 waitTime w
   = Ok (Some (None, Some "http: no Location header in response"%string)) w)
  /\ (forall location err,
        Response_Location r0 = inl location ->
        url_Parse location = inr err ->
        waitForResponseWithTimer (S fuel) c r0 waitTime w
        = Ok (Some (None, Some err)) w)
  /\ (forall location path err,
        Response_Location r0 = inl location ->
        url_Parse location = inl path ->
        SignedString (token_claims c "GET" path (now w) (now w)) (key c)
        = inr err ->
        waitForResponseWithTimer (S fuel) c r0 waitTime w
        = Ok (Some (None, Some err)) w).
Proof.
  split; [| split].
  - intros Hno. unfold waitForResponseWithTimer, Response_Location.
    rewrite Hno. reflexivity.
  - intros location err Hloc Hp. unfold waitForResponseWithTimer.
    rewrite Hloc. cbn [pollLoop]. unfold http_NewRequest. now rewrite Hp.
  - intros location path err Hloc Hp Hsign. unfold waitForResponseWithTimer.
    rewrite Hloc. cbn [pollLoop]. unfold http_NewRequest. rewrite Hp.
    erewrite bind_Ok by apply setToken_eq.
    cbn [Method URL_Path ReqHeader]. rewrite Hsign. reflexivity.
Qed.

End PollProps.

Lemma toy_signs c path : signs (crypto := toy_crypto) c path.
Proof. intros t. eexists. reflexivity. Qed.

Lemma Hello_sends_one_signed_GET_witness :
  exists w',
    Hello (crypto := toy_crypto) (http := toy_http) heketi_client hello_ok
    = Ok None w'
    /\ script w' = [].
Proof.
  destruct (Hello_sends_one_signed_GET (crypto := toy_crypto) (http := toy_http)
              heketi_client hello_ok "http://heketi/hello" created []
              eq_refl (toy_signs _ _) eq_refl)
    as (w' & Hh & _ & Hs & _).
  - cbn. unfold MAX_CONCURRENT_REQUESTS. lia.
  - exists w'. split; [exact Hh | exact Hs].
Defined.

Lemma waitForResponseWithTimer_polls_until_done_witness :
  exists w',
    waitForResponseWithTimer (crypto := toy_crypto) (http := toy_http)
      5 heketi_client queued Second two_polls
    = Ok (Some (Some created, None)) w'
    /\ now w' = 2 * Second.
Proof.
  destruct (waitForResponseWithTimer_polls_until_done
              (crypto := toy_crypto) (http := toy_http)
              5 heketi_client queued Second two_polls
              "/queue/abc" "/queue/abc" [working; working] created []
              eq_refl eq_refl (toy_signs _ _) eq_refl)
    as (w' & Hw & Hnow & _).
  - repeat constructor.
  - vm_compute. discriminate.
  - cbn. unfold MAX_CONCURRENT_REQUESTS. lia.
  - cbn. lia.
  - exists w'. split; [exact Hw | exact Hnow].
Defined.

Lemma waitForResponseWithTimer_fails_witness :
  exists w',
    waitForResponseWithTimer (crypto := toy_crypto) (http := toy_http)
      5 heketi_client queued Second failing_poll
    = Ok (Some (None, Some "volume create failed"%string)) w'
    /\ script w' = [].
Proof.
  destruct (waitForResponseWithTimer_fails
              (crypto := toy_crypto) (http := toy_http)
              5 heketi_client queued Second failing_poll
              "/queue/abc" "/queue/abc" [working] (inl broken)
              "volume create failed" []
              eq_refl eq_refl (toy_signs _ _) eq_refl)
    as (w' & Hw & _ & Hs).
  - repeat constructor.
  - right. exists broken. repeat split. vm_compute. discriminate.
  - cbn. unfold MAX_CONCURRENT_REQUESTS. lia.
  - cbn. lia.
  - exists w'. split; [exact Hw | exact Hs].
Defined.

Lemma waitForResponseWithTimer_never_gives_up_witness :
  exists w',
    waitForResponseWithTimer (crypto := toy_crypto) (http := toy_http)
      2 heketi_client queued Second two_polls
    = Ok None w'
    /\ now w' = 2 * Second.
Proof.
  destruct (waitForResponseWithTimer_never_gives_up
              (crypto := toy_crypto) (http := toy_http)
              heketi_client queued Second two_polls
              "/queue/abc" "/queue/abc" [working; working] [inl created]
              eq_refl eq_refl (toy_signs _ _) eq_refl)
    as (w' & Hw & Hnow & _).
  - repeat constructor.
  - cbn. unfold MAX_CONCURRENT_REQUESTS. lia.
  - exists w'. split; [exact Hw | exact Hnow].
Defined.

Lemma waitForResponseWithTimer_sends_nothing_on_setup_error_witness :
  waitForResponseWithTimer (crypto := toy_crypto) (http := toy_http)
    5 heketi_client created Second two_polls
  = Ok (Some (None, Some "http: no Location header in response"%string)) two_polls.
Proof.
  destruct (waitForResponseWithTimer_sends_nothing_on_setup_error
              (crypto := toy_crypto) (http := toy_http)
              5 heketi_client created Second two_polls) as [Hno _].
  apply Hno. reflexivity.
Defined.

End RetryProps.
